(** * Regime post-processing utilities ([utils/misc.py]): a shallow embedding

    The Python module labels the regimes of a fitted Markov-switching
    regression (bull / bear / chop), tabulates the estimates and compares
    predicted signals with a ground truth.  This file embeds its five
    functions and proves the properties the specification states about them.

    Conventions of the embedding:
    - a Python [float] is an IEEE-754 binary64 number, taken from the
      standard library's [spec_float] with precision 53 and [emax] 1024;
      operations round to nearest, ties to even, as the hardware does, and
      comparisons with NaN are false;
    - [round(x, n)] is the rounding of the built-in [float]: the exact
      value of [x] is rounded to [n] decimal places, ties to even, and the
      decimal is converted to the nearest float;
    - a [str] is a [string] of ASCII characters, an [int] is a [Z];
    - [sorted] sorts as the [list.sort] of CPython 3.11 does: run
      detection and binary insertion, the whole of the algorithm for a
      list of fewer than 64 elements;
    - a raised exception is the [Raise] case of [result]; text written by
      [print] is collected as a list of lines;
    - the parameter dict of [identify_2_regimes] is a [gmap]; a pandas
      [Series] is the list of its (label, value) entries in index order,
      with pairwise distinct labels; a dict whose iteration order matters
      is an association list in insertion order;
    - a frame of signals is the list of its columns over one row index,
      the ground truth being a column over the same index. *)

From Stdlib Require Import ZArith List String Ascii Bool Lia Permutation Sorted.
From Stdlib Require Import Floats.SpecFloat Numbers.DecimalString.
From Stdlib Require Numbers.DecimalPos.
From stdpp Require Import base option list strings gmap.

Local Open Scope string_scope.
Local Open Scope Z_scope.

(** ** Exceptions and results *)

Inductive py_exn : Type :=
| KeyError (key : string)
| ValueError (msg : string)
| IndexError
| OverflowError.

Inductive result (A : Type) : Type :=
| Ok (a : A)
| Raise (e : py_exn).
Arguments Ok {A} a.
Arguments Raise {A} e.

#[global] Instance result_ret : MRet result := fun A a => Ok a.
#[global] Instance result_bind : MBind result := fun A B f m =>
  match m with
  | Ok a => f a
  | Raise e => Raise e
  end.

(** [for x in l] with a body that may raise, threading an accumulator. *)
Fixpoint for_each {A S} (body : S -> A -> result S) (l : list A) (s : S) : result S :=
  match l with
  | [] => Ok s
  | x :: l' => s' ← body s x; for_each body l' s'
  end.

(** A list comprehension whose element expression may raise. *)
Fixpoint map_result {A B} (f : A -> result B) (l : list A) : result (list B) :=
  match l with
  | [] => Ok []
  | x :: l' => y ← f x; ys ← map_result f l'; Ok (y :: ys)
  end.

(** ** Binary64 floating point *)

Module F64.

Definition prec : Z := 53.
Definition emax : Z := 1024.

Definition float64 : Type := spec_float.

Definition nan : float64 := S754_nan.

(** The nearest binary64 to the rational [n / d] with sign [s]
    ([0 <= n], [0 < d]); the division of [SpecFloat] rounds correctly
    for mantissas of any size. *)
Definition of_ratio (s : bool) (n d : Z) : float64 :=
  match n, d with
  | Z0, _ => S754_zero s
  | Zpos pn, Zpos pd =>
      SFdiv prec emax (S754_finite s pn 0) (S754_finite false pd 0)
  | _, _ => S754_nan
  end.

(** An [int] used in float arithmetic, as in [1 - p11]. *)
Definition of_int (z : Z) : float64 :=
  of_ratio (z <? 0) (Z.abs z) 1.

(** The decimal literal [m * 10^-k], as Python reads [0.023456]. *)
Definition dec (m : Z) (k : nat) : float64 :=
  of_ratio (m <? 0) (Z.abs m) (10 ^ Z.of_nat k).

Definition sub : float64 -> float64 -> float64 := SFsub prec emax.
Definition sqrt : float64 -> float64 := SFsqrt prec emax.
Definition ltb : float64 -> float64 -> bool := SFltb.
Definition leb : float64 -> float64 -> bool := SFleb.
Definition gtb (x y : float64) : bool := SFltb y x.

Definition is_nan (x : float64) : bool :=
  match x with S754_nan => true | _ => false end.

Definition is_infinite (x : float64) : bool :=
  match x with S754_infinity _ => true | _ => false end.

(** The integer nearest to [num / den], ties going to the even one
    ([0 <= num], [0 < den]). *)
Definition round_half_even (num den : Z) : Z :=
  let q := num / den in
  match 2 * (num mod den) ?= den with
  | Lt => q
  | Gt => q + 1
  | Eq => if Z.even q then q else q + 1
  end.

Definition NDIGITS_MAX : Z := 323.
Definition NDIGITS_MIN : Z := -308.

(** [round(x, ndigits)] of a Python float: the exact value of [x] is
    rounded to [ndigits] decimal places, ties to even, and the decimal
    is converted back to the nearest binary64.  NaN, infinities and
    zeros round to themselves, and a result beyond the largest finite
    float raises [OverflowError]. *)
Definition round (x : float64) (ndigits : Z) : result float64 :=
  match x with
  | S754_finite s m e =>
      if NDIGITS_MAX <? ndigits then Ok x
      else if ndigits <? NDIGITS_MIN then Ok (S754_zero s)
      else
        let up := 10 ^ Z.max ndigits 0 in
        let down := 10 ^ Z.max (- ndigits) 0 in
        let num := Zpos m * 2 ^ Z.max e 0 * up in
        let den := 2 ^ Z.max (- e) 0 * down in
        let rounded := of_ratio s (round_half_even num den * down) up in
        if is_infinite rounded then Raise OverflowError else Ok rounded
  | _ => Ok x
  end.

End F64.

Abbreviation float64 := F64.float64.

(** ** Strings, integers and ordered dicts of the Python runtime *)

(** [s.startswith(p)] *)
Definition startswith (s p : string) : bool := String.prefix p s.

(** [s.split(sep)] for a separator of one character: never empty. *)
Fixpoint split (sep : ascii) (s : string) : list string :=
  match s with
  | EmptyString => [EmptyString]
  | String c s' =>
      if Ascii.eqb c sep then EmptyString :: split sep s'
      else match split sep s' with
           | [] => [String c EmptyString]
           | w :: ws => String c w :: ws
           end
  end.

(** [s.rstrip(c)] for a set of one character. *)
Fixpoint rstrip (c : ascii) (s : string) : string :=
  match s with
  | EmptyString => EmptyString
  | String a s' =>
      match rstrip c s' with
      | EmptyString => if Ascii.eqb a c then EmptyString else String a EmptyString
      | r => String a r
      end
  end.

(** [l[i]] on a list. *)
Definition list_getitem {A} (l : list A) (i : nat) : result A :=
  match nth_error l i with
  | Some x => Ok x
  | None => Raise IndexError
  end.

(** [l.index(x)] on a list of strings. *)
Fixpoint list_index (x : string) (l : list string) : result nat :=
  match l with
  | [] => Raise (ValueError "is not in list")
  | y :: l' => if String.eqb y x then Ok O else i ← list_index x l'; Ok (S i)
  end.

(** The characters [int()] skips around a literal: tab, newline,
    vertical tab, form feed, carriage return and space. *)
Definition is_space (c : ascii) : bool :=
  let n := Z.of_nat (nat_of_ascii c) in
  ((9 <=? n) && (n <=? 13)) || (n =? 32).

Definition digit_value (c : ascii) : option Z :=
  let n := Z.of_nat (nat_of_ascii c) in
  if (48 <=? n) && (n <=? 57) then Some (n - 48) else None.

Fixpoint skip_spaces (s : string) : string :=
  match s with
  | String c s' => if is_space c then skip_spaces s' else s
  | EmptyString => s
  end.

Inductive scan_state : Type := AtStart | AfterDigit | AfterUnderscore.

(** The digits of a base-10 literal, with single underscores allowed
    between digits; returns the value and the text that follows. *)
Fixpoint scan_digits (st : scan_state) (acc : Z) (s : string) : option (Z * string) :=
  let stop := match st with AfterDigit => Some (acc, s) | _ => None end in
  match s with
  | EmptyString => stop
  | String c s' =>
      match digit_value c with
      | Some d => scan_digits AfterDigit (10 * acc + d) s'
      | None =>
          if Ascii.eqb c "_" then
            match st with
            | AfterDigit => scan_digits AfterUnderscore acc s'
            | _ => None
            end
          else stop
      end
  end.

Definition invalid_literal : py_exn :=
  ValueError "invalid literal for int() with base 10".

(** [int(s)] for a [str]: optional surrounding whitespace, an optional
    sign, then decimal digits.  (CPython's configurable cap on the number
    of digits is not part of the model.) *)
Definition py_int (s : string) : result Z :=
  let s1 := skip_spaces s in
  let '(neg, s2) :=
    match s1 with
    | String "+" r => (false, r)
    | String "-" r => (true, r)
    | _ => (false, s1)
    end in
  match scan_digits AtStart 0 s2 with
  | Some (v, rest) =>
      match skip_spaces rest with
      | EmptyString => Ok (if (neg : bool) then - v else v)
      | _ => Raise invalid_literal
      end
  | None => Raise invalid_literal
  end.

(** [str(n)] for an [int], also what an f-string inserts. *)
Definition py_str (n : Z) : string := NilZero.string_of_int (Z.to_int n).

(** [repr(s)] for a [str] without quotes, backslashes or control
    characters, which is how a [KeyError] prints its key. *)
Definition py_repr (s : string) : string := "'" ++ s ++ "'".

(** [d[k] = v] on a dict kept in insertion order: an existing key keeps
    its place and takes the new value. *)
Fixpoint dict_set {V} (d : list (Z * V)) (k : Z) (v : V) : list (Z * V) :=
  match d with
  | [] => [(k, v)]
  | (k', v') :: d' => if k' =? k then (k', v) :: d' else (k', v') :: dict_set d' k v
  end.

Fixpoint dict_getitem {V} (d : list (Z * V)) (k : Z) : result V :=
  match d with
  | [] => Raise (KeyError (py_str k))
  | (k', v) :: d' => if k' =? k then Ok v else dict_getitem d' k
  end.

(** [sorted(l, key=...)] computes the keys first and then sorts the list of
    (key, item) pairs as [list.sort] does, comparing keys with [<] only.
    The sort is that of CPython 3.11 ([Objects/listobject.c]) for a list
    of fewer than 64 elements, which is a single run: a list of fewer than
    two elements is left alone; [count_run] measures the longest prefix
    that is ascending (no element is below its predecessor) or strictly
    descending (every element is below its predecessor), a descending
    prefix is reversed, and [binarysort] inserts each later element into
    the sorted prefix at the place found by bisection.  Only these
    comparisons are made, so with keys that [<] does not order (NaN) the
    result is the one of this algorithm and of no other.

    A list of 64 or more elements is cut by CPython into several such runs
    that are then merged; the merge is not modelled, and [sort_keyed] sorts
    a long list as one run.  That is the same list whenever [<] is a
    strict weak order on the keys (the sort is stable), as for the integer
    keys of [build_3_regimes_summary_table]; and [identify_3_regimes]
    rejects every list that has not exactly three elements. *)

(** The length of the run that has [n] elements so far and ends with the
    key [prev]. *)
Fixpoint run_end {K A} (lt : K -> K -> bool) (descending : bool) (prev : K)
    (l : list (K * A)) (n : nat) : nat :=
  match l with
  | [] => n
  | x :: l' =>
      if Bool.eqb (lt (fst x) prev) descending
      then run_end lt descending (fst x) l' (S n)
      else n
  end.

(** [count_run]: the length of the run at the head of the list and whether
    it is descending. *)
Definition count_run {K A} (lt : K -> K -> bool) (l : list (K * A)) : nat * bool :=
  match l with
  | [] => (0%nat, false)
  | [_] => (1%nat, false)
  | x0 :: x1 :: l' =>
      let descending := lt (fst x1) (fst x0) in
      (run_end lt descending (fst x1) l' 2, descending)
  end.

(** The bisection of [binarysort]: the place of [pivot] in [a[l:r]]. *)
Fixpoint bisect {K A} (lt : K -> K -> bool) (pivot : K) (a : list (K * A))
    (l r : nat) (fuel : nat) : nat :=
  match fuel with
  | O => l
  | S fuel' =>
      if (l <? r)%nat then
        let p := (l + Nat.div2 (r - l))%nat in
        match nth_error a p with
        | Some y =>
            if lt pivot (fst y)
            then bisect lt pivot a l p fuel'
            else bisect lt pivot a (S p) r fuel'
        | None => l
        end
      else l
  end.

(** One step of [binarysort]: [pivot] is moved into the sorted prefix. *)
Definition binary_insert {K A} (lt : K -> K -> bool) (pivot : K * A)
    (a : list (K * A)) : list (K * A) :=
  let l := bisect lt (fst pivot) a 0 (length a) (length a) in
  (firstn l a ++ pivot :: skipn l a)%list.

Definition binarysort {K A} (lt : K -> K -> bool) (a rest : list (K * A)) : list (K * A) :=
  fold_left (fun a pivot => binary_insert lt pivot a) rest a.

Definition sort_keyed {K A} (lt : K -> K -> bool) (l : list (K * A)) : list (K * A) :=
  match l with
  | [] | [_] => l
  | _ =>
      let '(n, descending) := count_run lt l in
      let run := firstn n l in
      binarysort lt (if descending then rev run else run) (skipn n l)
  end.

Definition sorted {K A} (lt : K -> K -> bool) (key : A -> result K) (l : list A) : result (list A) :=
  keyed ← map_result (fun x => k ← key x; Ok (k, x)) l;
  Ok (map snd (sort_keyed lt keyed)).

(** ** pandas [Series] with string labels *)

Definition Series : Type := list (string * float64).

(** [s.index] *)
Definition series_index (s : Series) : list string := map fst s.

Fixpoint series_find (s : Series) (label : string) : option float64 :=
  match s with
  | [] => None
  | (l, v) :: s' => if String.eqb l label then Some v else series_find s' label
  end.

(** [s[label]] *)
Definition series_getitem (s : Series) (label : string) : result float64 :=
  match series_find s label with
  | Some v => Ok v
  | None => Raise (KeyError label)
  end.

(** [s.get(label, default)] *)
Definition series_get (s : Series) (label : string) (default : float64) : float64 :=
  match series_find s label with
  | Some v => v
  | None => default
  end.

(** ** [identify_2_regimes] *)

(** A regime descriptor [{'beta0': .., 'var': .., 'pXY': .., 'pXZ': ..}]:
    the two entries every descriptor has, then the transition
    probabilities under their own keys, in the order of the dict. *)
Record descriptor : Type := {
  beta0 : float64;
  var : float64;
  transitions : list (string * float64)
}.

(** The returned [{'bull': .., 'bear': ..}]. *)
Record regimes : Type := {
  bull : descriptor;
  bear : descriptor
}.

(** What a call does: the lines it prints, then its return value or the
    exception that leaves it. *)
Record outcome (A : Type) : Type := {
  printed : list string;
  returned : result A
}.
Arguments printed {A} o.
Arguments returned {A} o.

(** [params[key]] *)
Definition params_getitem (params : gmap string float64) (key : string) : result float64 :=
  match params !! key with
  | Some v => Ok v
  | None => Raise (KeyError key)
  end.

(** The body of the [try] block: six lookups, in this order. *)
Definition read_params (params : gmap string float64)
  : result (float64 * float64 * float64 * float64 * float64 * float64) :=
  p11 ← params_getitem params "p[0->0]";
  p21 ← params_getitem params "p[1->0]";
  b1 ← params_getitem params "const[0]";
  b2 ← params_getitem params "const[1]";
  var1 ← params_getitem params "sigma2[0]";
  var2 ← params_getitem params "sigma2[1]";
  Ok (p11, p21, b1, b2, var1, var2).

(** [round(x, decimals)] under [if decimals is not None]. *)
Definition round_if (decimals : option Z) (x : float64) : result float64 :=
  match decimals with
  | Some d => F64.round x d
  | None => Ok x
  end.

(** From the six parameters to [regime1] and [regime2]. *)
Definition build_descriptors (decimals : option Z)
    (p11 p21 b1 b2 var1 var2 : float64) : result (descriptor * descriptor) :=
  let p12 := F64.sub (F64.of_int 1) p11 in
  let p22 := F64.sub (F64.of_int 1) p21 in
  p11 ← round_if decimals p11;
  p21 ← round_if decimals p21;
  p12 ← round_if decimals p12;
  p22 ← round_if decimals p22;
  b1 ← round_if decimals b1;
  b2 ← round_if decimals b2;
  var1 ← round_if decimals var1;
  var2 ← round_if decimals var2;
  let regime1 := {| beta0 := b1; var := var1;
                    transitions := [("p11", p11); ("p12", p12)] |} in
  let regime2 := {| beta0 := b2; var := var2;
                    transitions := [("p22", p22); ("p21", p21)] |} in
  Ok (regime1, regime2).

(** The tests of the [if] and of the [elif]. *)
Definition first_is_bull (regime1 regime2 : descriptor) : bool :=
  F64.gtb (beta0 regime1) (F64.of_int 0)
  && F64.ltb (beta0 regime2) (F64.of_int 0)
  && F64.ltb (var regime1) (var regime2).

Definition second_is_bull (regime1 regime2 : descriptor) : bool :=
  F64.gtb (beta0 regime2) (F64.of_int 0)
  && F64.ltb (beta0 regime1) (F64.of_int 0)
  && F64.ltb (var regime2) (var regime1).

Definition mixed_message : string :=
  "Mixed regimes: Cannot clearly identify bull and bear regimes.".

Definition identify_2_regimes (params : gmap string float64) (decimals : option Z)
  : outcome (option regimes) :=
  match read_params params with
  | Raise (KeyError e) =>
      {| printed := ["Missing parameter: " ++ py_repr e]; returned := Ok None |}
  | Raise e => {| printed := []; returned := Raise e |}
  | Ok (p11, p21, b1, b2, var1, var2) =>
      match build_descriptors decimals p11 p21 b1 b2 var1 var2 with
      | Raise e => {| printed := []; returned := Raise e |}
      | Ok (regime1, regime2) =>
          if first_is_bull regime1 regime2 then
            {| printed := [];
               returned := Ok (Some {| bull := regime1; bear := regime2 |}) |}
          else if second_is_bull regime1 regime2 then
            {| printed := [];
               returned := Ok (Some {| bull := regime2; bear := regime1 |}) |}
          else
            {| printed := [mixed_message]; returned := Ok None |}
      end
  end.

(** The default of the keyword argument: [decimals=4]. *)
Definition default_decimals : option Z := Some 4.

(** ** [identify_3_regimes] *)

(** [int(idx.split('[')[1].rstrip(']'))] *)
Definition regime_index (idx : string) : result Z :=
  part ← list_getitem (split "[" idx) 1;
  py_int (rstrip "]" part).

(** The dict comprehension over [estimates.index]. *)
Definition const_vals (estimates : Series) : result (list (Z * float64)) :=
  for_each
    (fun d idx =>
       if startswith idx "const[" then
         r ← regime_index idx;
         v ← series_getitem estimates idx;
         Ok (dict_set d r v)
       else Ok d)
    (series_index estimates) [].

(** A label assignment [{"Bull": .., "Bear": .., "Chop": ..}], in the
    order of its entries. *)
Definition label_map_t : Type := list (string * Z).

Definition identify_3_regimes (estimates : Series) : result label_map_t :=
  const_vals ← const_vals estimates;
  sorted_by_const ← sorted F64.ltb (fun r => dict_getitem const_vals r)
                            (map fst const_vals);
  match sorted_by_const with
  | [bear_reg; chop_reg; bull_reg] =>
      Ok [("Bull", bull_reg); ("Bear", bear_reg); ("Chop", chop_reg)]
  | _ => Raise (ValueError "wrong number of values to unpack (expected 3)")
  end.

(** ** [build_3_regimes_summary_table] *)

(** The summary table: a frame indexed by (Regime, Parameter) with three
    columns of numbers; each row carries its index pair and its cells in
    column order. *)
Record DataFrame : Type := {
  index_names : list string;
  columns : list string;
  rows : list ((string * string) * list float64)
}.

(** One dict appended to [rows]. *)
Record row_dict : Type := {
  r_Regime : string;
  r_Parameter : string;
  r_Estimate : float64;
  r_t_statistic : float64;
  r_p_value : float64
}.

Definition param_keys : list (string * string) :=
  [("const", "Constant"); ("ar.L1", "AR(1)"); ("ar.L2", "AR(2)");
   ("sigma2", "Std. Deviation")].

Definition label_order : list string := ["Bull"; "Bear"; "Chop"].

(** The body of the inner loop for one label and one parameter. *)
Definition make_row (estimates tvalues pvalues : Series)
    (regime_label : string) (reg : Z) (kp : string * string) : row_dict :=
  let '(key, pretty) := kp in
  let idx := key ++ "[" ++ py_str reg ++ "]" in
  let est := series_get estimates idx F64.nan in
  let est := if String.eqb key "sigma2" && negb (F64.is_nan est)
             then F64.sqrt est else est in
  {| r_Regime := regime_label;
     r_Parameter := pretty;
     r_Estimate := est;
     r_t_statistic := series_get tvalues idx F64.nan;
     r_p_value := series_get pvalues idx F64.nan |}.

(** [pd.DataFrame(rows).set_index(["Regime", "Parameter"])]: a frame made
    of no dict has no column to index by. *)
Definition frame_of_rows (rs : list row_dict) : result DataFrame :=
  match rs with
  | [] => Raise (KeyError "None of ['Regime', 'Parameter'] are in the columns")
  | _ =>
      Ok {| index_names := ["Regime"; "Parameter"];
            columns := ["Estimate"; "t-statistic"; "p-value"];
            rows := map (fun r => ((r_Regime r, r_Parameter r),
                                   [r_Estimate r; r_t_statistic r; r_p_value r])) rs |}
  end.

Definition build_3_regimes_summary_table (estimates tvalues pvalues : Series)
    (label_map : label_map_t) : result DataFrame :=
  items ← sorted Nat.ltb (fun x : string * Z => list_index (fst x) label_order)
                 label_map;
  frame_of_rows
    (flat_map (fun '(regime_label, reg) =>
                 map (make_row estimates tvalues pvalues regime_label reg) param_keys)
              items).

(** ** [build_3_regimes_summary] *)

Definition build_3_regimes_summary (estimates tvalues pvalues : Series)
  : result DataFrame :=
  label_map ← identify_3_regimes estimates;
  build_3_regimes_summary_table estimates tvalues pvalues label_map.

(** ** [detect_tsm_classifications] *)

(** A frame of signal codes, column by column over a common row index;
    a cell is an integer code or missing. *)
Definition cell : Type := option Z.
Definition signal_column : Type := list cell.
Definition signal_frame : Type := list signal_column.

(** [pd.concat(objs, axis=1)] of columns over one index: there must be
    something to concatenate. *)
Definition concat_columns (objs : list signal_column) : result signal_frame :=
  match objs with
  | [] => Raise (ValueError "No objects to concatenate")
  | _ => Ok objs
  end.

(** [df == v], cell by cell; a missing cell equals nothing. *)
Definition frame_eq (df : signal_frame) (v : Z) : list (list bool) :=
  map (map (fun c : cell => match c with Some x => x =? v | None => false end)) df.

(** [m1 & m2] *)
Definition mask_and (m1 m2 : list (list bool)) : list (list bool) :=
  zip_with (zip_with andb) m1 m2.

(** [result[mask] = v] *)
Definition set_where (result : signal_frame) (mask : list (list bool)) (v : Z) : signal_frame :=
  zip_with (zip_with (fun (c : cell) (b : bool) => if b then Some v else c)) result mask.

(** [pd.DataFrame(index=df.index, columns=df.columns)]: every cell unset. *)
Definition empty_like (df : signal_frame) : signal_frame :=
  map (map (fun _ : cell => @None Z)) df.

Definition detect_tsm_classifications (target_df : signal_frame)
    (ground_truth : signal_column) : result signal_frame :=
  gt_broadcast ← concat_columns (repeat ground_truth (length target_df));
  let result := empty_like target_df in
  let result := set_where result
                  (mask_and (frame_eq target_df 1) (frame_eq gt_broadcast 1)) 1 in
  let result := set_where result
                  (mask_and (frame_eq target_df (-1)) (frame_eq gt_broadcast (-1))) 2 in
  let result := set_where result
                  (mask_and (frame_eq target_df 1) (frame_eq gt_broadcast (-1))) 3 in
  let result := set_where result
                  (mask_and (frame_eq target_df (-1)) (frame_eq gt_broadcast 1)) 4 in
  Ok result.

(** ** Vocabulary of the specification *)

(** The six keys [identify_2_regimes] reads, in the order it reads them. *)
Definition required_keys : list string :=
  ["p[0->0]"; "p[1->0]"; "const[0]"; "const[1]"; "sigma2[0]"; "sigma2[1]"].

Definition positive_beta0 (d : descriptor) : Prop :=
  F64.gtb (beta0 d) (F64.of_int 0) = true.

Definition negative_beta0 (d : descriptor) : Prop :=
  F64.ltb (beta0 d) (F64.of_int 0) = true.

Definition lower_variance (d d' : descriptor) : Prop :=
  F64.ltb (var d) (var d') = true.

(** One regime has positive beta0, the other negative beta0, and the
    positive one has strictly lower variance. *)
Definition bull_bear (d d' : descriptor) : Prop :=
  positive_beta0 d /\ negative_beta0 d' /\ lower_variance d d'.

(** The float [1 - p]. *)
Definition complement (p : float64) : float64 := F64.sub (F64.of_int 1) p.

(** Regime A and regime B of the specification, from the values that go
    into them. *)
Definition regime_A (b v p11 p12 : float64) : descriptor :=
  {| beta0 := b; var := v; transitions := [("p11", p11); ("p12", p12)] |}.

Definition regime_B (b v p22 p21 : float64) : descriptor :=
  {| beta0 := b; var := v; transitions := [("p22", p22); ("p21", p21)] |}.

(** The parameters of the first testable property of the specification. *)
Definition example_params : gmap string float64 :=
  list_to_map
    [("p[0->0]", F64.dec 9 1); ("p[1->0]", F64.dec 2 1);
     ("const[0]", F64.dec 2 2); ("const[1]", F64.dec (-3) 2);
     ("sigma2[0]", F64.dec 1 2); ("sigma2[1]", F64.dec 5 2)].

(** The parameters of the rounding property: [const[0] = 0.023456]. *)
Definition rounding_example_params : gmap string float64 :=
  <["const[0]" := F64.dec 23456 6]> example_params.

(** Parameters whose first constant is positive but below the default
    rounding precision: [const[0] = 0.00001]. *)
Definition tiny_constant_params : gmap string float64 :=
  <["const[0]" := F64.dec 1 5]> example_params.

(** The printed form of the [KeyError] for a missing key. *)
Definition missing_message (key : string) : string :=
  "Missing parameter: '" ++ key ++ "'".

(** The key under which the constant of regime [n] is stored. *)
Definition const_key (n : Z) : string := "const[" ++ py_str n ++ "]".

(** The labels of a series that [identify_3_regimes] looks at. *)
Definition const_labels (s : Series) : list string :=
  List.filter (fun idx => startswith idx "const[") (series_index s).

(** The series has keys [const[i]] for exactly the three distinct regime
    indices [i], [j], [k]. *)
Definition three_regimes (s : Series) (i j k : Z) : Prop :=
  0 <= i /\ 0 <= j /\ 0 <= k /\ i <> j /\ i <> k /\ j <> k /\
  Permutation (const_labels s) [const_key i; const_key j; const_key k].

(** The constant term of regime [r]. *)
Definition const_of (s : Series) (r : Z) : float64 :=
  series_get s (const_key r) F64.nan.

(** The value of a digit sequence read from the left, after [acc]. *)
Fixpoint uint_value (d : Decimal.uint) (acc : Z) : Z :=
  match d with
  | Decimal.Nil => acc
  | Decimal.D0 d' => uint_value d' (10 * acc + 0)
  | Decimal.D1 d' => uint_value d' (10 * acc + 1)
  | Decimal.D2 d' => uint_value d' (10 * acc + 2)
  | Decimal.D3 d' => uint_value d' (10 * acc + 3)
  | Decimal.D4 d' => uint_value d' (10 * acc + 4)
  | Decimal.D5 d' => uint_value d' (10 * acc + 5)
  | Decimal.D6 d' => uint_value d' (10 * acc + 6)
  | Decimal.D7 d' => uint_value d' (10 * acc + 7)
  | Decimal.D8 d' => uint_value d' (10 * acc + 8)
  | Decimal.D9 d' => uint_value d' (10 * acc + 9)
  end.

(** The estimates of the second testable property of the specification. *)
Definition example_estimates : Series :=
  [("const[0]", F64.dec (-1) 2); ("const[1]", F64.dec 3 2);
   ("const[2]", F64.dec 1 3)].

(** The loop body of the dict comprehension for a label that passed the
    [startswith] filter. *)
Definition record_const (estimates : Series) (d : list (Z * float64)) (idx : string)
  : result (list (Z * float64)) :=
  r ← regime_index idx;
  v ← series_getitem estimates idx;
  Ok (dict_set d r v).

(** The keys of a dict after [d[k] = ...]. *)
Definition add_key (ks : list Z) (k : Z) : list Z :=
  if existsb (fun k' => k' =? k) ks then ks else (ks ++ [k])%list.

(** The regime indices [int()] reads out of the [const[] labels, and how
    many different ones there are. *)
Definition parsed_indices (s : Series) : result (list Z) :=
  map_result regime_index (const_labels s).

Definition distinct_count (l : list Z) : nat := length (remove_dups l).

(** Estimates with one label that is not of the form [const[<i>]]. *)
Definition malformed_estimates : Series :=
  [("const[0][1]", F64.dec (-1) 2); ("const[1]", F64.dec 3 2);
   ("const[2]", F64.dec 1 3)].

(** Estimates of a model with two regimes only. *)
Definition two_regime_estimates : Series :=
  [("const[0]", F64.dec (-1) 2); ("const[1]", F64.dec 3 2);
   ("sigma2[0]", F64.dec 1 2); ("sigma2[1]", F64.dec 5 2)].

Definition unpack_error : py_exn :=
  ValueError "wrong number of values to unpack (expected 3)".

(** The code of one cell, from the predicted and the true signal:
    (1,1) is 1, (-1,-1) is 2, (1,-1) is 3, (-1,1) is 4, and any other
    pair leaves the cell unset. *)
Definition classification_code (prediction truth : cell) : cell :=
  match prediction, truth with
  | Some 1, Some 1 => Some 1
  | Some (-1), Some (-1) => Some 2
  | Some 1, Some (-1) => Some 3
  | Some (-1), Some 1 => Some 4
  | _, _ => None
  end.

(** In every column of [df] there is one cell per entry of [gt]. *)
Definition one_value_per_row (df : signal_frame) (gt : signal_column) : Prop :=
  Forall (fun col : signal_column => length col = length gt) df.

(** The four assignments of [detect_tsm_classifications], on one column. *)
Definition classify_column (col gt : signal_column) : signal_column :=
  let eq v := map (fun c : cell => match c with Some x => x =? v | None => false end) in
  let set (v : Z) := zip_with (fun (c : cell) (b : bool) => if b then Some v else c) in
  let r := map (fun _ : cell => @None Z) col in
  let r := set 1 r (zip_with andb (eq 1 col) (eq 1 gt)) in
  let r := set 2 r (zip_with andb (eq (-1) col) (eq (-1) gt)) in
  let r := set 3 r (zip_with andb (eq 1 col) (eq (-1) gt)) in
  set 4 r (zip_with andb (eq (-1) col) (eq 1 gt)).

(** [df.loc[(regime, parameter)]]: the cells of the row with that index
    pair, the first one if there are several. *)
Fixpoint rows_loc (rs : list ((string * string) * list float64))
    (regime parameter : string) : option (list float64) :=
  match rs with
  | [] => None
  | ((r, p), cells) :: rs' =>
      if String.eqb r regime && String.eqb p parameter then Some cells
      else rows_loc rs' regime parameter
  end.

Definition frame_loc (df : DataFrame) (regime parameter : string)
  : option (list float64) :=
  rows_loc (rows df) regime parameter.

(** The entry of a series under a key, or not-a-number when the key is
    missing. *)
Definition looked_up (s : Series) (idx : string) : float64 :=
  match series_find s idx with
  | Some v => v
  | None => F64.nan
  end.

(** The key [<prefix>[<regime-index>]]. *)
Definition param_key (prefix : string) (reg : Z) : string :=
  prefix ++ "[" ++ py_str reg ++ "]".

(** The index of the summary table, in its fixed order. *)
Definition summary_index : list (string * string) :=
  [("Bull", "Constant"); ("Bull", "AR(1)"); ("Bull", "AR(2)"); ("Bull", "Std. Deviation");
   ("Bear", "Constant"); ("Bear", "AR(1)"); ("Bear", "AR(2)"); ("Bear", "Std. Deviation");
   ("Chop", "Constant"); ("Chop", "AR(1)"); ("Chop", "AR(2)"); ("Chop", "Std. Deviation")].

(** The wrapper in the words of the specification: first the label
    assignment from the estimates, then the table for that assignment. *)
Definition summary_in_two_steps (estimates tvalues pvalues : Series)
  : result DataFrame :=
  match identify_3_regimes estimates with
  | Ok label_map => build_3_regimes_summary_table estimates tvalues pvalues label_map
  | Raise e => Raise e
  end.

(** Estimates of three regimes with [sigma2[1] = 0.04]. *)
Definition sigma2_example_estimates : Series :=
  [("const[0]", F64.dec (-1) 2); ("const[1]", F64.dec 3 2);
   ("const[2]", F64.dec 1 3); ("sigma2[1]", F64.dec 4 2)].

(** The four rows of the table for one label, as the specification
    describes them. *)
Definition regime_rows (estimates tvalues pvalues : Series) (label : string) (reg : Z)
  : list ((string * string) * list float64) :=
  [((label, "Constant"),
    [looked_up estimates (param_key "const" reg);
     looked_up tvalues (param_key "const" reg);
     looked_up pvalues (param_key "const" reg)]);
   ((label, "AR(1)"),
    [looked_up estimates (param_key "ar.L1" reg);
     looked_up tvalues (param_key "ar.L1" reg);
     looked_up pvalues (param_key "ar.L1" reg)]);
   ((label, "AR(2)"),
    [looked_up estimates (param_key "ar.L2" reg);
     looked_up tvalues (param_key "ar.L2" reg);
     looked_up pvalues (param_key "ar.L2" reg)]);
   ((label, "Std. Deviation"),
    [F64.sqrt (looked_up estimates (param_key "sigma2" reg));
     looked_up tvalues (param_key "sigma2" reg);
     looked_up pvalues (param_key "sigma2" reg)])].

(** Parameters whose first constant is the largest finite float,
    [1.7976931348623157e308]. *)
Definition huge_constant_params : gmap string float64 :=
  <["const[0]" := F64.dec (17976931348623157 * 10 ^ 292) 0]> example_params.

(** The parameters of the first testable property with one more entry. *)
Definition example_params_with_extra : gmap string float64 :=
  <["ar.L1[0]" := F64.dec 5 1]> example_params.

(** A float that is a zero of either sign. *)
Definition is_zero (x : float64) : bool :=
  match x with S754_zero _ => true | _ => false end.

(** Parameters whose first constant is not a number. *)
Definition nan_constant_params : gmap string float64 :=
  <["const[0]" := F64.nan]> example_params.

(** The entries of a series whose label starts with [const[]. *)
Definition const_entries (s : Series) : Series :=
  List.filter (fun entry => startswith (fst entry) "const[") s.

(** Three regimes with the same constant, stored as regimes 2, 0, 1. *)
Definition tied_estimates : Series :=
  [("const[2]", F64.dec 1 2); ("const[0]", F64.dec 1 2); ("const[1]", F64.dec 1 2)].

(** The exceptions of the table builder. *)
Definition not_in_list : py_exn := ValueError "is not in list".

Definition nothing_to_index : py_exn :=
  KeyError "None of ['Regime', 'Parameter'] are in the columns".

(** Estimates of three regimes, the second with a negative variance. *)
Definition negative_variance_estimates : Series :=
  [("const[0]", F64.dec (-1) 2); ("const[1]", F64.dec 3 2);
   ("const[2]", F64.dec 1 3); ("sigma2[1]", F64.dec (-4) 2)].

(** A signal code of the domain: [1] or [-1]. *)
Definition in_domain (c : cell) : Prop := c = Some 1 \/ c = Some (-1).

(** The (prediction, truth) pair behind a classification code. *)
Definition decode (code : Z) : option (Z * Z) :=
  match code with
  | 1 => Some (1, 1)
  | 2 => Some (-1, -1)
  | 3 => Some (1, -1)
  | 4 => Some (-1, 1)
  | _ => None
  end.

(** Bull and bear exchanged: codes 1 and 2, and codes 3 and 4. *)
Definition swap_code (c : cell) : cell :=
  match c with
  | Some 1 => Some 2
  | Some 2 => Some 1
  | Some 3 => Some 4
  | Some 4 => Some 3
  | other => other
  end.

(** The opposite signal. *)
Definition negate (c : cell) : cell := option_map Z.opp c.

Definition nothing_to_concatenate : py_exn := ValueError "No objects to concatenate".

(** Three regimes of which the middle one has no constant to compare:
    [const[0] = 1.0], [const[1] = NaN], [const[2] = 0.0]. *)
Definition nan_estimates : Series :=
  [("const[0]", F64.of_int 1); ("const[1]", F64.nan); ("const[2]", F64.of_int 0)].

(** A ground truth over two rows, for a frame that has rows but no column. *)
Definition two_row_truth : signal_column := [Some 1; Some (-1)].

(** * Proofs *)

(** ** Results *)

Lemma bind_Ok_inv {A B} (m : result A) (f : A -> result B) (b : B) :
  (x ← m; f x) = Ok b -> exists a, m = Ok a /\ f a = Ok b.
Proof. destruct m as [a|e]; simpl; intros H; [eauto | discriminate]. Qed.

Lemma bind_Ok {A B} (a : A) (f : A -> result B) : (x ← Ok a; f x) = f a.
Proof. reflexivity. Qed.

Lemma for_each_cons {A S} (body : S -> A -> result S) (x : A) (l : list A) (s : S) :
  for_each body (x :: l) s = s' ← body s x; for_each body l s'.
Proof. reflexivity. Qed.

Ltac inv_bind H :=
  repeat match type of H with
         | (_ ← ?m; _) = Ok _ =>
             let a := fresh "a" in
             let Ha := fresh "Ha" in
             apply bind_Ok_inv in H; destruct H as (a & Ha & H)
         end.

(** ** The order on binary64 numbers *)

Lemma ltb_zero_exclusive (x : float64) :
  F64.gtb x (F64.of_int 0) = true -> F64.ltb x (F64.of_int 0) = false.
Proof. destruct x as [[]|[]| |[] m e]; simpl; intros H; try discriminate; reflexivity. Qed.

(** ** [identify_2_regimes] *)

Lemma read_params_Ok params p11 p21 b1 b2 var1 var2 :
  params !! "p[0->0]" = Some p11 -> params !! "p[1->0]" = Some p21 ->
  params !! "const[0]" = Some b1 -> params !! "const[1]" = Some b2 ->
  params !! "sigma2[0]" = Some var1 -> params !! "sigma2[1]" = Some var2 ->
  read_params params = Ok (p11, p21, b1, b2, var1, var2).
Proof.
  intros H1 H2 H3 H4 H5 H6. unfold read_params, params_getitem.
  rewrite H1, H2, H3, H4, H5, H6. reflexivity.
Qed.

Lemma build_descriptors_inv decimals p11 p21 b1 b2 var1 var2 A B :
  build_descriptors decimals p11 p21 b1 b2 var1 var2 = Ok (A, B) ->
  exists q11 q21 q12 q22 c1 c2 v1 v2,
    round_if decimals p11 = Ok q11 /\ round_if decimals p21 = Ok q21 /\
    round_if decimals (complement p11) = Ok q12 /\
    round_if decimals (complement p21) = Ok q22 /\
    round_if decimals b1 = Ok c1 /\ round_if decimals b2 = Ok c2 /\
    round_if decimals var1 = Ok v1 /\ round_if decimals var2 = Ok v2 /\
    A = regime_A c1 v1 q11 q12 /\ B = regime_B c2 v2 q22 q21.
Proof.
  unfold build_descriptors. intros H. inv_bind H.
  injection H as <- <-.
  repeat eexists; eassumption.
Qed.

Lemma classification_exclusive A B : bull_bear A B -> ~ bull_bear B A.
Proof.
  intros (HA & _ & _) (_ & HB & _).
  apply ltb_zero_exclusive in HA. unfold negative_beta0 in HB. congruence.
Qed.

Lemma first_is_bull_iff A B : first_is_bull A B = true <-> bull_bear A B.
Proof.
  unfold first_is_bull, bull_bear, positive_beta0, negative_beta0, lower_variance.
  rewrite !andb_true_iff. tauto.
Qed.

Lemma second_is_bull_iff A B : second_is_bull A B = true <-> bull_bear B A.
Proof.
  unfold second_is_bull, bull_bear, positive_beta0, negative_beta0, lower_variance.
  rewrite !andb_true_iff. tauto.
Qed.

(** What the function does once the six parameters are read and the two
    descriptors are built. *)
Lemma identify_2_regimes_built params decimals p11 p21 b1 b2 var1 var2 A B :
  read_params params = Ok (p11, p21, b1, b2, var1, var2) ->
  build_descriptors decimals p11 p21 b1 b2 var1 var2 = Ok (A, B) ->
  identify_2_regimes params decimals =
    if first_is_bull A B then
      {| printed := []; returned := Ok (Some {| bull := A; bear := B |}) |}
    else if second_is_bull A B then
      {| printed := []; returned := Ok (Some {| bull := B; bear := A |}) |}
    else {| printed := [mixed_message]; returned := Ok None |}.
Proof.
  intros Hr Hb. unfold identify_2_regimes. rewrite Hr, Hb. reflexivity.
Qed.

(** C1.  When the six required keys are present (and rounding, if any,
    raised nothing), the descriptors [A] and [B] hold the constants, the
    variances and the transition probabilities [p11], [p12 = 1 - p11] and
    [p22 = 1 - p21], [p21], each passed through the optional rounding (so
    unchanged when it is off); [identify_2_regimes] returns a non-null
    result exactly when one descriptor has positive beta0, the other has
    negative beta0 and the positive one has strictly lower variance, and
    then ['bull'] is the positive, lower-variance descriptor and ['bear']
    the other. *)
Theorem identify_2_regimes_bull_bear
    params decimals p11 p21 b1 b2 var1 var2 A B :
  params !! "p[0->0]" = Some p11 -> params !! "p[1->0]" = Some p21 ->
  params !! "const[0]" = Some b1 -> params !! "const[1]" = Some b2 ->
  params !! "sigma2[0]" = Some var1 -> params !! "sigma2[1]" = Some var2 ->
  build_descriptors decimals p11 p21 b1 b2 var1 var2 = Ok (A, B) ->
  let out := returned (identify_2_regimes params decimals) in
  (exists q11 q21 q12 q22 c1 c2 v1 v2,
      round_if decimals p11 = Ok q11 /\ round_if decimals p21 = Ok q21 /\
      round_if decimals (complement p11) = Ok q12 /\
      round_if decimals (complement p21) = Ok q22 /\
      round_if decimals b1 = Ok c1 /\ round_if decimals b2 = Ok c2 /\
      round_if decimals var1 = Ok v1 /\ round_if decimals var2 = Ok v2 /\
      A = regime_A c1 v1 q11 q12 /\ B = regime_B c2 v2 q22 q21)
  /\ (decimals = None ->
      A = regime_A b1 var1 p11 (complement p11) /\
      B = regime_B b2 var2 (complement p21) p21)
  /\ ((exists r, out = Ok (Some r)) <-> bull_bear A B \/ bull_bear B A)
  /\ (bull_bear A B -> out = Ok (Some {| bull := A; bear := B |}))
  /\ (bull_bear B A -> out = Ok (Some {| bull := B; bear := A |})).
Proof.
  intros H1 H2 H3 H4 H5 H6 Hb out.
  pose proof (read_params_Ok _ _ _ _ _ _ _ H1 H2 H3 H4 H5 H6) as Hr.
  pose proof (identify_2_regimes_built _ _ _ _ _ _ _ _ _ _ Hr Hb) as Hid.
  pose proof (build_descriptors_inv _ _ _ _ _ _ _ _ _ Hb) as Hinv.
  split; [exact Hinv|].
  split.
  { intros ->. destruct Hinv as (q11 & q21 & q12 & q22 & c1 & c2 & v1 & v2 & E).
    simpl in E. destruct E as (E1 & E2 & E3 & E4 & E5 & E6 & E7 & E8 & -> & ->).
    injection E1 as <-. injection E2 as <-. injection E3 as <-.
    injection E4 as <-. injection E5 as <-. injection E6 as <-.
    injection E7 as <-. injection E8 as <-. split; reflexivity. }
  subst out. rewrite Hid.
  destruct (first_is_bull A B) eqn:F1.
  - apply first_is_bull_iff in F1. simpl.
    split; [split; [intros _; left; exact F1 | intros _; eexists; reflexivity]|].
    split; [reflexivity|].
    intros F2. exfalso. exact (classification_exclusive _ _ F1 F2).
  - destruct (second_is_bull A B) eqn:F2.
    + apply second_is_bull_iff in F2. simpl.
      split; [split; [intros _; right; exact F2 | intros _; eexists; reflexivity]|].
      split; [|reflexivity].
      intros F1'. apply first_is_bull_iff in F1'. congruence.
    + simpl. split; [split|split].
      * intros [r Hr']. discriminate.
      * intros [F|F]; [apply first_is_bull_iff in F | apply second_is_bull_iff in F];
          congruence.
      * intros F. apply first_is_bull_iff in F. congruence.
      * intros F. apply second_is_bull_iff in F. congruence.
Qed.

Lemma identify_2_regimes_bull_bear_witness :
  returned (identify_2_regimes example_params default_decimals)
  = Ok (Some {| bull := regime_A (F64.dec 2 2) (F64.dec 1 2) (F64.dec 9 1) (F64.dec 1 1);
                bear := regime_B (F64.dec (-3) 2) (F64.dec 5 2) (F64.dec 8 1) (F64.dec 2 1) |}).
Proof.
  apply (identify_2_regimes_bull_bear example_params default_decimals
           (F64.dec 9 1) (F64.dec 2 1) (F64.dec 2 2) (F64.dec (-3) 2)
           (F64.dec 1 2) (F64.dec 5 2)
           (regime_A (F64.dec 2 2) (F64.dec 1 2) (F64.dec 9 1) (F64.dec 1 1))
           (regime_B (F64.dec (-3) 2) (F64.dec 5 2) (F64.dec 8 1) (F64.dec 2 1)));
    try (vm_compute; reflexivity).
  vm_compute. repeat split; reflexivity.
Defined.

Lemma bull_bear_needs_signs A B :
  bull_bear A B -> positive_beta0 A /\ ~ negative_beta0 A /\
                   negative_beta0 B /\ ~ positive_beta0 B.
Proof.
  intros (HA & HB & _). unfold positive_beta0, negative_beta0 in *.
  repeat split; try assumption.
  - apply ltb_zero_exclusive in HA. congruence.
  - intros HB'. apply ltb_zero_exclusive in HB'. congruence.
Qed.

(** C5.  The two failure paths end in a [None] return, not an exception.
    When one of the six required keys is absent, the function prints
    [Missing parameter: '<key>'] for the first absent key, in the order it
    reads them, and returns [None].  When all six are present, the
    descriptors are built and neither assignment of bull and bear fits
    them, it prints the mixed-regimes message and returns [None]; this is
    the case when both constants are positive, when both are negative, and
    when the signs differ but the positive regime has no lower variance. *)
Theorem identify_2_regimes_failure_paths params decimals :
  ((exists key, In key required_keys /\ params !! key = None) ->
   exists pre key post,
     required_keys = (pre ++ key :: post)%list /\
     Forall (fun k => is_Some (params !! k)) pre /\
     params !! key = None /\
     identify_2_regimes params decimals =
       {| printed := [missing_message key]; returned := Ok None |})
  /\ (forall p11 p21 b1 b2 var1 var2 A B,
        params !! "p[0->0]" = Some p11 -> params !! "p[1->0]" = Some p21 ->
        params !! "const[0]" = Some b1 -> params !! "const[1]" = Some b2 ->
        params !! "sigma2[0]" = Some var1 -> params !! "sigma2[1]" = Some var2 ->
        build_descriptors decimals p11 p21 b1 b2 var1 var2 = Ok (A, B) ->
        (~ bull_bear A B /\ ~ bull_bear B A
         \/ positive_beta0 A /\ positive_beta0 B
         \/ negative_beta0 A /\ negative_beta0 B
         \/ positive_beta0 A /\ negative_beta0 B /\ ~ lower_variance A B
         \/ positive_beta0 B /\ negative_beta0 A /\ ~ lower_variance B A) ->
        identify_2_regimes params decimals =
          {| printed := [mixed_message]; returned := Ok None |}).
Proof.
  split.
  - intros (key & Hin & Hnone).
    unfold identify_2_regimes, read_params, params_getitem, missing_message, py_repr.
    destruct (params !! "p[0->0]") as [p11|] eqn:E1.
    2:{ exists [], "p[0->0]", (tl required_keys). repeat split; auto. }
    destruct (params !! "p[1->0]") as [p21|] eqn:E2.
    2:{ exists ["p[0->0]"], "p[1->0]", (tl (tl required_keys)).
        repeat split; auto; try (repeat constructor; rewrite E1; eauto). }
    destruct (params !! "const[0]") as [b1|] eqn:E3.
    2:{ exists ["p[0->0]"; "p[1->0]"], "const[0]", (tl (tl (tl required_keys))).
        repeat split; auto; try (repeat constructor; rewrite ?E1, ?E2; eauto). }
    destruct (params !! "const[1]") as [b2|] eqn:E4.
    2:{ exists ["p[0->0]"; "p[1->0]"; "const[0]"], "const[1]", ["sigma2[0]"; "sigma2[1]"].
        repeat split; auto; try (repeat constructor; rewrite ?E1, ?E2, ?E3; eauto). }
    destruct (params !! "sigma2[0]") as [var1|] eqn:E5.
    2:{ exists ["p[0->0]"; "p[1->0]"; "const[0]"; "const[1]"], "sigma2[0]", ["sigma2[1]"].
        repeat split; auto; try (repeat constructor; rewrite ?E1, ?E2, ?E3, ?E4; eauto). }
    destruct (params !! "sigma2[1]") as [var2|] eqn:E6.
    2:{ exists ["p[0->0]"; "p[1->0]"; "const[0]"; "const[1]"; "sigma2[0]"], "sigma2[1]", [].
        repeat split; auto; try (repeat constructor; rewrite ?E1, ?E2, ?E3, ?E4, ?E5; eauto). }
    exfalso. simpl in Hin.
    destruct Hin as [<-|[<-|[<-|[<-|[<-|[<-|[]]]]]]]; congruence.
  - intros p11 p21 b1 b2 var1 var2 A B H1 H2 H3 H4 H5 H6 Hb Hcase.
    pose proof (read_params_Ok _ _ _ _ _ _ _ H1 H2 H3 H4 H5 H6) as Hr.
    rewrite (identify_2_regimes_built _ _ _ _ _ _ _ _ _ _ Hr Hb).
    assert (~ bull_bear A B /\ ~ bull_bear B A) as [N1 N2].
    { destruct Hcase as [?|[[PA PB]|[[NA NB]|[(PA & NB & V)|(PB & NA & V)]]]];
        [assumption|split; intros F; apply bull_bear_needs_signs in F; tauto ..| |].
      - split; intros F.
        + destruct F as (_ & _ & F). tauto.
        + apply bull_bear_needs_signs in F. tauto.
      - split; intros F.
        + apply bull_bear_needs_signs in F. tauto.
        + destruct F as (_ & _ & F). tauto. }
    destruct (first_is_bull A B) eqn:F1; [apply first_is_bull_iff in F1; tauto|].
    destruct (second_is_bull A B) eqn:F2; [apply second_is_bull_iff in F2; tauto|].
    reflexivity.
Qed.

Lemma identify_2_regimes_failure_paths_witness :
  (exists key,
      delete "const[1]" example_params !! key = None /\
      identify_2_regimes (delete "const[1]" example_params) default_decimals
      = {| printed := [missing_message key]; returned := Ok None |})
  /\ identify_2_regimes (<["const[1]" := F64.dec 3 2]> example_params) default_decimals
    = {| printed := [mixed_message]; returned := Ok None |}.
Proof.
  split.
  - destruct (proj1 (identify_2_regimes_failure_paths
                       (delete "const[1]" example_params) default_decimals))
      as (pre & key & post & _ & _ & Hnone & Hout).
    + exists "const[1]". split; [simpl; tauto | vm_compute; reflexivity].
    + exists key. split; assumption.
  - apply (proj2 (identify_2_regimes_failure_paths
                    (<["const[1]" := F64.dec 3 2]> example_params) default_decimals)
             (F64.dec 9 1) (F64.dec 2 1) (F64.dec 2 2) (F64.dec 3 2)
             (F64.dec 1 2) (F64.dec 5 2)
             (regime_A (F64.dec 2 2) (F64.dec 1 2) (F64.dec 9 1) (F64.dec 1 1))
             (regime_B (F64.dec 3 2) (F64.dec 5 2) (F64.dec 8 1) (F64.dec 2 1)));
      try (vm_compute; reflexivity).
    right. left. split; vm_compute; reflexivity.
Defined.

(** The integer chosen by [round_half_even] is a nearest one: it is at
    most half a unit away from [num / den]. *)
Lemma round_half_even_nearest num den :
  0 < den ->
  Z.abs (2 * (F64.round_half_even num den * den - num)) <= den.
Proof.
  intros Hden. unfold F64.round_half_even.
  pose proof (Z.div_mod num den ltac:(lia)) as Hdm.
  pose proof (Z.mod_pos_bound num den Hden) as Hb.
  destruct (Z.compare_spec (2 * (num mod den)) den) as [E|L|G];
    [destruct (Z.even (num / den))|..]; nia.
Qed.

(** On a tie the even neighbour is taken. *)
Lemma round_half_even_tie num den :
  0 < den -> 2 * (num mod den) = den ->
  Z.even (F64.round_half_even num den) = true.
Proof.
  intros Hden Htie. unfold F64.round_half_even.
  rewrite Htie, Z.compare_refl.
  destruct (Z.even (num / den)) eqn:E; [exact E|].
  rewrite Z.even_add, E. reflexivity.
Qed.

(** What [round] returns for a finite float and a reasonable number of
    places: the nearest float to a decimal [n / 10^ndigits] (or
    [n * 10^-ndigits]) whose numerator [n] is an integer nearest to the
    exact value of the float scaled by [10^ndigits]. *)
Lemma round_decimal_places (s : bool) (m : positive) (e ndigits : Z) (r : float64) :
  F64.NDIGITS_MIN <= ndigits <= F64.NDIGITS_MAX ->
  F64.round (S754_finite s m e) ndigits = Ok r ->
  let up := 10 ^ Z.max ndigits 0 in
  let down := 10 ^ Z.max (- ndigits) 0 in
  let num := Zpos m * 2 ^ Z.max e 0 * up in
  let den := 2 ^ Z.max (- e) 0 * down in
  exists n, r = F64.of_ratio s (n * down) up
            /\ Z.abs (2 * (n * den - num)) <= den.
Proof.
  intros [Hlo Hhi] Hr up down num den. unfold F64.round in Hr.
  destruct (Z.ltb_spec F64.NDIGITS_MAX ndigits); [lia|].
  destruct (Z.ltb_spec ndigits F64.NDIGITS_MIN); [lia|].
  fold up down num den in Hr.
  destruct (F64.is_infinite _); [discriminate|].
  injection Hr as <-. exists (F64.round_half_even num den).
  split; [reflexivity|].
  apply round_half_even_nearest. subst den down.
  apply Z.mul_pos_pos; apply Z.pow_pos_nonneg; lia.
Qed.

(** C7.  Whatever bull/bear result the function returns, its two
    descriptors hold the eight derived values [p11], [p21], [p12 = 1 - p11],
    [p22 = 1 - p21], the two constants and the two variances, each passed
    through [round(., decimals)] when [decimals] is a number and left as
    it is when [decimals] is [None]; the default is four places.  With
    [decimals=2] the constant [0.023456] becomes the beta0 [0.02], and
    with [decimals=None] it stays [0.023456]. *)
Theorem identify_2_regimes_rounding
    params decimals p11 p21 b1 b2 var1 var2 r :
  params !! "p[0->0]" = Some p11 -> params !! "p[1->0]" = Some p21 ->
  params !! "const[0]" = Some b1 -> params !! "const[1]" = Some b2 ->
  params !! "sigma2[0]" = Some var1 -> params !! "sigma2[1]" = Some var2 ->
  returned (identify_2_regimes params decimals) = Ok (Some r) ->
  (exists q11 q21 q12 q22 c1 c2 v1 v2,
      round_if decimals p11 = Ok q11 /\ round_if decimals p21 = Ok q21 /\
      round_if decimals (complement p11) = Ok q12 /\
      round_if decimals (complement p21) = Ok q22 /\
      round_if decimals b1 = Ok c1 /\ round_if decimals b2 = Ok c2 /\
      round_if decimals var1 = Ok v1 /\ round_if decimals var2 = Ok v2 /\
      (r = {| bull := regime_A c1 v1 q11 q12; bear := regime_B c2 v2 q22 q21 |}
       \/ r = {| bull := regime_B c2 v2 q22 q21; bear := regime_A c1 v1 q11 q12 |}))
  /\ (forall x d, round_if (Some d) x = F64.round x d)
  /\ (forall x, round_if None x = Ok x)
  /\ default_decimals = Some 4
  /\ F64.round (F64.dec 23456 6) 2 = Ok (F64.dec 2 2)
  /\ (exists r2, returned (identify_2_regimes rounding_example_params (Some 2)) = Ok (Some r2)
                 /\ beta0 (bull r2) = F64.dec 2 2)
  /\ (exists r0, returned (identify_2_regimes rounding_example_params None) = Ok (Some r0)
                 /\ beta0 (bull r0) = F64.dec 23456 6).
Proof.
  intros H1 H2 H3 H4 H5 H6 Hret.
  split; [|repeat split; try reflexivity; eexists; split; vm_compute; reflexivity].
  pose proof (read_params_Ok _ _ _ _ _ _ _ H1 H2 H3 H4 H5 H6) as Hr.
  unfold identify_2_regimes in Hret. rewrite Hr in Hret.
  destruct (build_descriptors decimals p11 p21 b1 b2 var1 var2) as [[A B]|e] eqn:Hb;
    [|discriminate].
  destruct (build_descriptors_inv _ _ _ _ _ _ _ _ _ Hb)
    as (q11 & q21 & q12 & q22 & c1 & c2 & v1 & v2 & E1 & E2 & E3 & E4 & E5 & E6 & E7 & E8 & -> & ->).
  exists q11, q21, q12, q22, c1, c2, v1, v2.
  repeat (split; [assumption|]).
  destruct (first_is_bull _ _); [left; simpl in Hret; congruence|].
  destruct (second_is_bull _ _); [right; simpl in Hret; congruence|].
  discriminate.
Qed.

Lemma identify_2_regimes_rounding_witness :
  exists q11 q21 q12 q22 c1 c2 v1 v2,
    round_if (Some 2) (F64.dec 9 1) = Ok q11 /\ round_if (Some 2) (F64.dec 2 1) = Ok q21 /\
    round_if (Some 2) (complement (F64.dec 9 1)) = Ok q12 /\
    round_if (Some 2) (complement (F64.dec 2 1)) = Ok q22 /\
    round_if (Some 2) (F64.dec 23456 6) = Ok c1 /\
    round_if (Some 2) (F64.dec (-3) 2) = Ok c2 /\
    round_if (Some 2) (F64.dec 1 2) = Ok v1 /\ round_if (Some 2) (F64.dec 5 2) = Ok v2 /\
    ({| bull := regime_A (F64.dec 2 2) (F64.dec 1 2) (F64.dec 9 1) (F64.dec 1 1);
        bear := regime_B (F64.dec (-3) 2) (F64.dec 5 2) (F64.dec 8 1) (F64.dec 2 1) |}
     = {| bull := regime_A c1 v1 q11 q12; bear := regime_B c2 v2 q22 q21 |}
     \/ {| bull := regime_A (F64.dec 2 2) (F64.dec 1 2) (F64.dec 9 1) (F64.dec 1 1);
           bear := regime_B (F64.dec (-3) 2) (F64.dec 5 2) (F64.dec 8 1) (F64.dec 2 1) |}
        = {| bull := regime_B c2 v2 q22 q21; bear := regime_A c1 v1 q11 q12 |}).
Proof.
  apply (identify_2_regimes_rounding rounding_example_params (Some 2)
           (F64.dec 9 1) (F64.dec 2 1) (F64.dec 23456 6) (F64.dec (-3) 2)
           (F64.dec 1 2) (F64.dec 5 2));
    vm_compute; reflexivity.
Defined.

(** C10.  The bull/bear test reads the rounded values.  With the default
    four decimals and [const[0] = 0.00001] the raw parameters satisfy the
    conditions (first constant strictly positive, second negative, first
    variance strictly lower), yet the rounded first constant is [0.0], not
    positive, and the function prints the mixed-regimes message and
    returns [None]; without rounding the same parameters are classified. *)
Theorem identify_2_regimes_tests_rounded_values :
  exists p11 p21 b1 b2 var1 var2 c1,
    tiny_constant_params !! "p[0->0]" = Some p11 /\
    tiny_constant_params !! "p[1->0]" = Some p21 /\
    tiny_constant_params !! "const[0]" = Some b1 /\
    tiny_constant_params !! "const[1]" = Some b2 /\
    tiny_constant_params !! "sigma2[0]" = Some var1 /\
    tiny_constant_params !! "sigma2[1]" = Some var2 /\
    b1 = F64.dec 1 5 /\
    F64.gtb b1 (F64.of_int 0) = true /\
    F64.ltb b2 (F64.of_int 0) = true /\
    F64.ltb var1 var2 = true /\
    round_if default_decimals b1 = Ok c1 /\
    F64.gtb c1 (F64.of_int 0) = false /\
    identify_2_regimes tiny_constant_params default_decimals
      = {| printed := [mixed_message]; returned := Ok None |} /\
    returned (identify_2_regimes tiny_constant_params None)
      = Ok (Some {| bull := regime_A b1 var1 p11 (complement p11);
                    bear := regime_B b2 var2 (complement p21) p21 |}).
Proof.
  exists (F64.dec 9 1), (F64.dec 2 1), (F64.dec 1 5), (F64.dec (-3) 2),
         (F64.dec 1 2), (F64.dec 5 2), (S754_zero false).
  repeat split; vm_compute; reflexivity.
Qed.

(** ** More on the order of binary64 numbers *)

Lemma ltb_leb (x y : float64) : F64.ltb x y = true -> F64.leb x y = true.
Proof.
  unfold F64.ltb, F64.leb, SFltb, SFleb.
  destruct (SFcompare x y) as [[]|]; intros H; try discriminate; reflexivity.
Qed.

Lemma SFcompare_antisym (x y : float64) :
  SFcompare y x = option_map CompOpp (SFcompare x y).
Proof.
  destruct x as [[]|[]| |[] m1 e1], y as [[]|[]| |[] m2 e2]; simpl; try reflexivity.
  - rewrite (Z.compare_antisym e1 e2).
    destruct (e1 ?= e2); simpl; try reflexivity.
    change (Pos.compare_cont Eq m2 m1) with (Pos.compare m2 m1).
    change (Pos.compare_cont Eq m1 m2) with (Pos.compare m1 m2).
    rewrite (Pos.compare_antisym m1 m2). reflexivity.
  - rewrite (Z.compare_antisym e1 e2).
    destruct (e1 ?= e2); simpl; try reflexivity.
    change (Pos.compare_cont Eq m2 m1) with (Pos.compare m2 m1).
    change (Pos.compare_cont Eq m1 m2) with (Pos.compare m1 m2).
    rewrite (Pos.compare_antisym m1 m2). reflexivity.
Qed.

(** Without NaN the order is total: what is not above is below or equal. *)
Lemma not_ltb_leb (x y : float64) :
  F64.is_nan x = false -> F64.is_nan y = false ->
  F64.ltb y x = false -> F64.leb x y = true.
Proof.
  unfold F64.ltb, F64.leb, SFltb, SFleb. intros Hx Hy.
  rewrite (SFcompare_antisym x y).
  destruct (SFcompare x y) as [[]|] eqn:E; simpl; try reflexivity; try discriminate.
  destruct x as [[]|[]| |[] m1 e1], y as [[]|[]| |[] m2 e2]; simpl in *; discriminate.
Qed.

Lemma leb_trans (x y z : float64) :
  F64.leb x y = true -> F64.leb y z = true -> F64.leb x z = true.
Proof.
  unfold F64.leb, SFleb.
  destruct x as [[]|[]| |[] m1 e1], y as [[]|[]| |[] m2 e2], z as [[]|[]| |[] m3 e3];
    simpl; try reflexivity; try discriminate;
    change (Pos.compare_cont Eq) with Pos.compare;
    destruct (Z.compare_spec e1 e2); try discriminate;
    destruct (Z.compare_spec e2 e3); try discriminate;
    destruct (Z.compare_spec e1 e3); try reflexivity; try lia; subst;
    destruct (Pos.compare_spec m1 m2); simpl; try discriminate;
    destruct (Pos.compare_spec m2 m3); simpl; try discriminate;
    destruct (Pos.compare_spec m1 m3); simpl; try reflexivity; intros; lia.
Qed.

(** ** Decimal strings: [int(str(n)) = n] *)

Lemma scan_digits_uint (d : Decimal.uint) :
  forall st acc,
    d <> Decimal.Nil \/ st = AfterDigit ->
    scan_digits st acc (NilEmpty.string_of_uint d) = Some (uint_value d acc, "").
Proof.
  induction d; intros st acc Hd;
    try (simpl; apply IHd; right; reflexivity).
  destruct Hd as [Hd| ->]; [congruence | reflexivity].
Qed.

Lemma uint_value_of_lu (d : Decimal.uint) :
  forall acc,
    uint_value d acc
    = Z.of_N (DecimalPos.Unsigned.of_lu (Decimal.rev d))
      + acc * 10 ^ Z.of_N (DecimalPos.Unsigned.usize d).
Proof.
  induction d; intros acc;
    try (simpl uint_value; rewrite IHd; unfold Decimal.rev; simpl Decimal.revapp;
         rewrite (DecimalPos.Unsigned.of_lu_revapp d (_ Decimal.Nil));
         simpl DecimalPos.Unsigned.usize; simpl DecimalPos.Unsigned.of_lu;
         rewrite N2Z.inj_succ, Z.pow_succ_r by lia;
         rewrite N2Z.inj_add, N2Z.inj_mul, N2Z.inj_pow;
         unfold Decimal.rev; simpl Z.of_N; ring).
  simpl. lia.
Qed.

Lemma uint_value_of_uint (d : Decimal.uint) :
  uint_value d 0 = Z.of_N (Pos.of_uint d).
Proof.
  rewrite uint_value_of_lu, DecimalPos.Unsigned.of_uint_alt. lia.
Qed.

Lemma uint_value_to_uint (p : positive) : uint_value (Pos.to_uint p) 0 = Zpos p.
Proof.
  rewrite uint_value_of_uint, DecimalPos.Unsigned.of_to. reflexivity.
Qed.

(** A digit string starts with a character that is neither a space nor
    a sign, so [int()] starts scanning at once. *)
Lemma py_int_digits (d : Decimal.uint) :
  d <> Decimal.Nil ->
  py_int (NilEmpty.string_of_uint d) = Ok (uint_value d 0)
  /\ py_int (String "-" (NilEmpty.string_of_uint d)) = Ok (- uint_value d 0).
Proof.
  intros Hd.
  pose proof (scan_digits_uint d AtStart 0 (or_introl Hd)) as Hs.
  split.
  - destruct d; try congruence; unfold py_int; simpl skip_spaces;
      cbv iota beta; simpl NilEmpty.string_of_uint in *; rewrite Hs; reflexivity.
  - unfold py_int; simpl skip_spaces; cbv iota beta; rewrite Hs; reflexivity.
Qed.

Lemma py_str_cases (n : Z) :
  (n = 0 /\ py_str n = "0")
  \/ (exists p, n = Zpos p /\ Pos.to_uint p <> Decimal.Nil
                /\ py_str n = NilEmpty.string_of_uint (Pos.to_uint p))
  \/ (exists p, n = Zneg p /\ Pos.to_uint p <> Decimal.Nil
                /\ py_str n = String "-" (NilEmpty.string_of_uint (Pos.to_uint p))).
Proof.
  destruct n as [|p|p].
  - left. split; reflexivity.
  - right. left. exists p. pose proof (DecimalPos.Unsigned.to_uint_nonnil p) as Hp.
    repeat split; [exact Hp|].
    unfold py_str, NilZero.string_of_int, NilZero.string_of_uint. simpl Z.to_int.
    destruct (Pos.to_uint p); try reflexivity. congruence.
  - right. right. exists p. pose proof (DecimalPos.Unsigned.to_uint_nonnil p) as Hp.
    repeat split; [exact Hp|].
    unfold py_str, NilZero.string_of_int, NilZero.string_of_uint. simpl Z.to_int.
    destruct (Pos.to_uint p); try reflexivity. congruence.
Qed.

(** [int(str(n)) == n] *)
Lemma py_int_py_str (n : Z) : py_int (py_str n) = Ok n.
Proof.
  destruct (py_str_cases n) as [[-> ->]|[(p & -> & Hp & ->)|(p & -> & Hp & ->)]].
  - reflexivity.
  - rewrite (proj1 (py_int_digits _ Hp)), uint_value_to_uint. reflexivity.
  - rewrite (proj2 (py_int_digits _ Hp)), uint_value_to_uint. reflexivity.
Qed.

Lemma split_digits (d : Decimal.uint) :
  split "[" (NilEmpty.string_of_uint d ++ "]") = [NilEmpty.string_of_uint d ++ "]"].
Proof. induction d; simpl; rewrite ?IHd; reflexivity. Qed.

Lemma rstrip_digits (d : Decimal.uint) :
  rstrip "]" (NilEmpty.string_of_uint d ++ "]") = NilEmpty.string_of_uint d.
Proof.
  induction d; try reflexivity;
    simpl; simpl in IHd; rewrite IHd;
    destruct (NilEmpty.string_of_uint d); reflexivity.
Qed.

Lemma split_const_prefix (t : string) :
  split "[" ("const[" ++ t) = "const" :: split "[" t.
Proof. reflexivity. Qed.

(** The text between the brackets of [const[n]] is read back as [n]. *)
Lemma regime_index_const_key (n : Z) : regime_index (const_key n) = Ok n.
Proof.
  unfold regime_index, const_key. rewrite split_const_prefix.
  pose proof (py_int_py_str n) as Hint.
  destruct (py_str_cases n) as [[-> ->]|[(p & -> & Hp & E)|(p & -> & Hp & E)]].
  - reflexivity.
  - rewrite E in *. rewrite split_digits. simpl.
    rewrite rstrip_digits. exact Hint.
  - rewrite E in *.
    change (String "-" (NilEmpty.string_of_uint (Pos.to_uint p)) ++ "]")
      with (String "-" (NilEmpty.string_of_uint (Pos.to_uint p) ++ "]")).
    assert (split "[" (String "-" (NilEmpty.string_of_uint (Pos.to_uint p) ++ "]"))
            = [String "-" (NilEmpty.string_of_uint (Pos.to_uint p) ++ "]")]) as ->.
    { simpl. rewrite split_digits. reflexivity. }
    simpl. pose proof (rstrip_digits (Pos.to_uint p)) as Hr. rewrite Hr.
    destruct (NilEmpty.string_of_uint (Pos.to_uint p)) eqn:Es.
    + destruct (Pos.to_uint p); simpl in Es; congruence.
    + exact Hint.
Qed.

Lemma startswith_const_key (n : Z) : startswith (const_key n) "const[" = true.
Proof.
  unfold startswith, const_key.
  change ("const[" ++ py_str n ++ "]")
    with (String "c" (String "o" (String "n" (String "s" (String "t" (String "["
            (py_str n ++ "]"))))))).
  destruct (py_str n ++ "]"); reflexivity.
Qed.

Lemma const_key_inj (n m : Z) : const_key n = const_key m -> n = m.
Proof.
  intros H. pose proof (regime_index_const_key n) as Hn.
  rewrite H, regime_index_const_key in Hn. congruence.
Qed.

(** ** Sorting by key *)

Section Sorting.
Context {K A : Type} (lt : K -> K -> bool).

Lemma binary_insert_perm (x : K * A) (a : list (K * A)) :
  Permutation (binary_insert lt x a) (x :: a).
Proof.
  unfold binary_insert. rewrite <- Permutation_middle, firstn_skipn. reflexivity.
Qed.

Lemma binarysort_perm (rest a : list (K * A)) :
  Permutation (binarysort lt a rest) (a ++ rest).
Proof.
  unfold binarysort. revert a. induction rest as [|x rest IH]; intros a; simpl.
  - rewrite app_nil_r. reflexivity.
  - rewrite IH, binary_insert_perm. apply Permutation_middle.
Qed.

(** The run that [run_end] measures: the elements it counts compare with
    their predecessors as the direction of the run says. *)
Lemma run_end_split (descending : bool) (l : list (K * A)) :
  forall (x : K * A) (n : nat),
  exists run rest,
    l = (run ++ rest)%list /\
    run_end lt descending (fst x) l n = (n + length run)%nat /\
    Sorted (fun p q => lt (fst q) (fst p) = descending) (x :: run).
Proof.
  induction l as [|y l IH]; intros x n; simpl.
  - exists [], []. repeat split; [simpl; lia|repeat constructor].
  - destruct (Bool.eqb (lt (fst y) (fst x)) descending) eqn:E.
    + destruct (IH y (S n)) as (run & rest & -> & -> & Hs).
      exists (y :: run), rest. repeat split; [simpl; lia|].
      constructor; [exact Hs|]. constructor. apply Bool.eqb_prop, E.
    + exists [], (y :: l). repeat split; [simpl; lia|repeat constructor].
Qed.

(** [sort_keyed] is [binarysort] started on the first run. *)
Lemma sort_keyed_run (l : list (K * A)) :
  exists (descending : bool) (run rest : list (K * A)),
    l = (run ++ rest)%list /\
    Sorted (fun p q => lt (fst q) (fst p) = descending) run /\
    sort_keyed lt l = binarysort lt (if descending then rev run else run) rest.
Proof.
  destruct l as [|x0 [|x1 l]].
  - exists false, [], []. repeat split. constructor.
  - exists false, [x0], []. repeat split. repeat constructor.
  - destruct (run_end_split (lt (fst x1) (fst x0)) l x1 2) as (run & rest & -> & E & Hs).
    exists (lt (fst x1) (fst x0)), (x0 :: x1 :: run), rest.
    split; [reflexivity|]. split.
    + constructor; [exact Hs|]. constructor. reflexivity.
    + unfold sort_keyed, count_run. rewrite E.
      change (x0 :: x1 :: run ++ rest)%list with ((x0 :: x1 :: run) ++ rest)%list.
      change (2 + length run)%nat with (length (x0 :: x1 :: run)).
      rewrite take_app_length, drop_app_length. reflexivity.
Qed.

Lemma sort_keyed_perm (l : list (K * A)) : Permutation (sort_keyed lt l) l.
Proof.
  destruct (sort_keyed_run l) as (descending & run & rest & E & _ & ->).
  rewrite binarysort_perm, E. apply Permutation_app_tail.
  destruct descending; [symmetry; apply Permutation_rev|reflexivity].
Qed.

Lemma sort_keyed_length (l : list (K * A)) : length (sort_keyed lt l) = length l.
Proof. apply Permutation_length, sort_keyed_perm. Qed.

(** A list in which no element is below its predecessor is one ascending
    run, and is left as it is. *)
Lemma sort_keyed_one_run (l : list (K * A)) :
  Sorted (fun p q => lt (fst q) (fst p) = false) l -> sort_keyed lt l = l.
Proof.
  destruct l as [|x0 [|x1 l]]; try reflexivity.
  intros Hs. apply Sorted_inv in Hs as [Hs H01]. apply HdRel_inv in H01.
  unfold sort_keyed, count_run. rewrite H01.
  assert (forall (l : list (K * A)) (x : K * A) (n : nat),
             Sorted (fun p q => lt (fst q) (fst p) = false) (x :: l) ->
             run_end lt false (fst x) l n = (n + length l)%nat) as Hrun.
  { clear. induction l as [|y l IH]; intros x n Hs; simpl; [lia|].
    apply Sorted_inv in Hs as [Hs Hxy]. apply HdRel_inv in Hxy.
    rewrite Hxy. simpl. rewrite (IH y (S n) Hs). lia. }
  rewrite (Hrun l x1 2%nat Hs).
  change (2 + length l)%nat with (length (x0 :: x1 :: l)).
  rewrite firstn_all, skipn_all. reflexivity.
Qed.
End Sorting.

(** *** Sorting floats that are not NaN *)

Section Ascending.
Context {A : Type}.

Local Abbreviation ascending :=
  (fun p q : float64 * A => F64.leb (fst p) (fst q) = true).
Local Abbreviation number := (fun p : float64 * A => F64.is_nan (fst p) = false).

Lemma ascending_trans : Relations_1.Transitive ascending.
Proof. intros p q r Hpq Hqr. exact (leb_trans _ _ _ Hpq Hqr). Qed.

Lemma ltb_leb_trans (x y z : float64) :
  F64.ltb x y = true -> F64.leb y z = true -> F64.ltb x z = true.
Proof.
  intros Hxy Hyz. destruct (F64.ltb x z) eqn:E; [reflexivity|].
  assert (F64.leb z x = true) as Hzx.
  { apply not_ltb_leb; [| |exact E];
      [destruct y as [?|?| |? ? ?], z as [?|?| |? ? ?]
      |destruct x as [?|?| |? ? ?], y as [?|?| |? ? ?]]; try discriminate; reflexivity. }
  pose proof (leb_trans _ _ _ Hyz Hzx) as Hyx.
  unfold F64.ltb, F64.leb, SFltb, SFleb in Hxy, Hyx.
  rewrite (SFcompare_antisym x y) in Hyx.
  destruct (SFcompare x y) as [[]|]; simpl in Hyx; discriminate.
Qed.

Lemma StronglySorted_app_intro {B} (R : B -> B -> Prop) (l1 l2 : list B) :
  StronglySorted R l1 -> StronglySorted R l2 ->
  Forall (fun x => Forall (R x) l2) l1 ->
  StronglySorted R (l1 ++ l2).
Proof.
  intros H1 H2 H12. induction H1 as [|x l1 H1 IH Hx]; simpl; [exact H2|].
  inversion H12 as [|? ? Hx2 H12']; subst.
  constructor; [apply IH, H12'|].
  apply Forall_app. split; assumption.
Qed.

Lemma StronglySorted_app_inv {B} (R : B -> B -> Prop) (l1 l2 : list B) :
  StronglySorted R (l1 ++ l2) ->
  StronglySorted R l1 /\ StronglySorted R l2 /\ Forall (fun x => Forall (R x) l2) l1.
Proof.
  induction l1 as [|x l1 IH]; simpl; intros H.
  - repeat split; [constructor|exact H|constructor].
  - apply StronglySorted_inv in H as [H Hx].
    destruct (IH H) as (H1 & H2 & H12).
    apply Forall_app in Hx as [Hx1 Hx2].
    repeat split; [constructor; assumption|exact H2|constructor; assumption].
Qed.

Lemma StronglySorted_rev {B} (R : B -> B -> Prop) (l : list B) :
  StronglySorted R l -> StronglySorted (fun x y => R y x) (rev l).
Proof.
  induction 1 as [|x l Hs IH Hx]; simpl; [constructor|].
  apply StronglySorted_app_intro; [exact IH|repeat constructor|].
  apply List.Forall_forall. intros y Hy. constructor; [|constructor].
  apply in_rev in Hy. exact (proj1 (List.Forall_forall _ _) Hx y Hy).
Qed.

(** An ascending run of numbers is in ascending order. *)
Lemma ascending_run (run : list (float64 * A)) :
  Forall number run ->
  Sorted (fun p q => F64.ltb (fst q) (fst p) = false) run ->
  StronglySorted ascending run.
Proof.
  intros Hn Hs. apply (Sorted_StronglySorted ascending_trans).
  induction Hs as [|x run Hs IH Hx]; [constructor|].
  inversion Hn as [|? ? Hnx Hn']; subst.
  constructor; [apply IH, Hn'|].
  destruct Hx as [|y run Hxy]; constructor.
  inversion Hn' as [|? ? Hny _]; subst.
  apply not_ltb_leb; assumption.
Qed.

(** A descending run, once reversed, is in ascending order. *)
Lemma descending_run (run : list (float64 * A)) :
  Sorted (fun p q => F64.ltb (fst q) (fst p) = true) run ->
  StronglySorted ascending (rev run).
Proof.
  intros Hs.
  apply (StronglySorted_rev (fun p q => ascending q p)).
  apply Sorted_StronglySorted.
  - intros p q r Hpq Hqr. exact (leb_trans _ _ _ Hqr Hpq).
  - induction Hs as [|x run Hs IH Hx]; [constructor|].
    constructor; [exact IH|].
    destruct Hx as [|y run Hxy]; constructor.
    apply ltb_leb, Hxy.
Qed.

(** The bisection keeps what [binarysort] states as its invariant: the
    elements before [l] are not above the pivot, the elements from [r] on
    are above it. *)
Lemma bisect_spec (pivot : float64) (a : list (float64 * A)) :
  F64.is_nan pivot = false -> Forall number a -> StronglySorted ascending a ->
  forall (fuel l r : nat),
    (l <= r)%nat -> (r <= length a)%nat -> (r - l <= fuel)%nat ->
    Forall (fun y => F64.leb (fst y) pivot = true) (firstn l a) ->
    Forall (fun y => F64.ltb pivot (fst y) = true) (skipn r a) ->
    Forall (fun y => F64.leb (fst y) pivot = true)
      (firstn (bisect F64.ltb pivot a l r fuel) a) /\
    Forall (fun y => F64.ltb pivot (fst y) = true)
      (skipn (bisect F64.ltb pivot a l r fuel) a).
Proof.
  intros Hp Hn Hs. induction fuel as [|fuel IH]; intros l r Hlr Hr Hfuel Hl Hrr.
  - simpl. replace l with r by lia. split; [|exact Hrr].
    replace r with l by lia. exact Hl.
  - simpl. destruct (l <? r)%nat eqn:E.
    2:{ apply Nat.ltb_ge in E. replace l with r at 2 by lia. split; assumption. }
    apply Nat.ltb_lt in E.
    pose proof (Nat.lt_div2 (r - l) ltac:(lia)) as Hhalf.
    set (d := Nat.div2 (r - l)) in *. clearbody d.
    set (p := (l + d)%nat) in *.
    assert (l <= p < r)%nat as Hpb by (unfold p; lia).
    clearbody p.
    destruct (nth_error a p) as [y|] eqn:Ey.
    2:{ apply nth_error_None in Ey. lia. }
    pose proof (firstn_skipn_middle p a Ey) as Hsplit.
    assert (number y) as Hy.
    { apply nth_error_In in Ey. exact (proj1 (List.Forall_forall _ _) Hn y Ey). }
    rewrite <- Hsplit in Hs.
    apply StronglySorted_app_inv in Hs as (_ & Hs2 & H12).
    apply StronglySorted_inv in Hs2 as [_ Hafter].
    destruct (F64.ltb pivot (fst y)) eqn:Epy.
    + apply IH; try lia; [exact Hl|].
      assert (skipn p a = y :: skipn (S p) a) as ->.
      { rewrite <- Hsplit at 1. rewrite drop_app_length'; [reflexivity|].
        rewrite length_firstn. lia. }
      constructor; [exact Epy|].
      eapply Forall_impl; [exact Hafter|]. intros z Hz.
      exact (ltb_leb_trans _ _ _ Epy Hz).
    + apply IH; try lia; [|exact Hrr].
      assert (firstn (S p) a = (firstn p a ++ [y])%list) as ->.
      { rewrite <- Hsplit at 1.
        change (firstn p a ++ y :: skipn (S p) a)%list
          with (firstn p a ++ [y] ++ skipn (S p) a)%list.
        rewrite app_assoc. rewrite take_app_length'; [reflexivity|].
        rewrite length_app, length_firstn. simpl. lia. }
      assert (F64.leb (fst y) pivot = true) as Hyp
          by (apply not_ltb_leb; assumption).
      apply Forall_app. split; [|repeat constructor; exact Hyp].
      eapply Forall_impl; [exact H12|]. intros z Hz.
      inversion Hz as [|? ? Hzy _]; subst.
      exact (leb_trans _ _ _ Hzy Hyp).
Qed.

Lemma binary_insert_ascending (x : float64 * A) (a : list (float64 * A)) :
  number x -> Forall number a -> StronglySorted ascending a ->
  StronglySorted ascending (binary_insert F64.ltb x a).
Proof.
  intros Hx Hn Hs. unfold binary_insert.
  destruct (bisect_spec (fst x) a Hx Hn Hs (length a) 0 (length a))
    as [Hbefore Hafter]; try lia.
  { constructor. }
  { rewrite skipn_all. constructor. }
  set (l := bisect F64.ltb (fst x) a 0 (length a) (length a)) in *.
  rewrite <- (firstn_skipn l a) in Hs.
  apply StronglySorted_app_inv in Hs as (Hs1 & Hs2 & H12).
  apply StronglySorted_app_intro; [exact Hs1| |].
  - constructor; [exact Hs2|].
    eapply Forall_impl; [exact Hafter|]. intros z Hz. apply ltb_leb, Hz.
  - apply List.Forall_forall. intros z Hz.
    constructor.
    + exact (proj1 (List.Forall_forall _ _) Hbefore z Hz).
    + exact (proj1 (List.Forall_forall _ _) H12 z Hz).
Qed.

Lemma binarysort_ascending (rest : list (float64 * A)) :
  forall a : list (float64 * A),
    Forall number a -> Forall number rest -> StronglySorted ascending a ->
    StronglySorted ascending (binarysort F64.ltb a rest).
Proof.
  unfold binarysort.
  induction rest as [|x rest IH]; intros a Ha Hrest Hs; simpl; [exact Hs|].
  inversion Hrest as [|? ? Hx Hrest']; subst.
  apply IH; [|exact Hrest'|apply binary_insert_ascending; assumption].
  eapply Permutation_Forall; [symmetry; apply binary_insert_perm|].
  constructor; assumption.
Qed.
End Ascending.

(** Sorting floats that are not NaN puts them in ascending order. *)
Lemma sort_keyed_ascending {A} (l : list (float64 * A)) :
  Forall (fun p => F64.is_nan (fst p) = false) l ->
  StronglySorted (fun p q => F64.leb (fst p) (fst q) = true) (sort_keyed F64.ltb l).
Proof.
  intros Hl.
  destruct (sort_keyed_run F64.ltb l) as (descending & run & rest & E & Hrun & ->).
  rewrite E in Hl. apply Forall_app in Hl as [Hn Hrest].
  apply binarysort_ascending; [|exact Hrest|].
  - destruct descending; [|exact Hn].
    eapply Permutation_Forall; [apply Permutation_rev|exact Hn].
  - destruct descending; [apply descending_run|apply ascending_run]; assumption.
Qed.

(** With a NaN among the keys only the comparisons of the algorithm count:
    [1.0, NaN, 0.0] is one ascending run and stays as it is; in
    [1.0, 0.0, NaN] the descending run [1.0, 0.0] is reversed and NaN
    stays behind it; in [NaN, 1.0, 0.0] the bisection places 0.0 between
    NaN and 1.0. *)
Lemma sort_keyed_nan_keys :
  map snd (sort_keyed F64.ltb [(F64.of_int 1, 0); (F64.nan, 1); (F64.of_int 0, 2)])
  = [0; 1; 2] /\
  map snd (sort_keyed F64.ltb [(F64.of_int 1, 0); (F64.of_int 0, 1); (F64.nan, 2)])
  = [1; 0; 2] /\
  map snd (sort_keyed F64.ltb [(F64.nan, 0); (F64.of_int 1, 1); (F64.of_int 0, 2)])
  = [0; 2; 1].
Proof. repeat split; reflexivity. Qed.

(** ** [identify_3_regimes] *)

Lemma for_each_filter (s : Series) (l : list string) :
  forall d,
    for_each
      (fun d idx =>
         if startswith idx "const[" then
           r ← regime_index idx;
           v ← series_getitem s idx;
           Ok (dict_set d r v)
         else Ok d) l d
    = for_each (record_const s)
        (List.filter (fun idx => startswith idx "const[") l) d.
Proof.
  induction l as [|idx l IH]; intros d; simpl; [reflexivity|].
  destruct (startswith idx "const[") eqn:E; simpl.
  - fold (record_const s d idx).
    destruct (record_const s d idx); simpl; [apply IH | reflexivity].
  - apply IH.
Qed.

Lemma const_vals_unfold (s : Series) :
  const_vals s = for_each (record_const s) (const_labels s) [].
Proof. apply for_each_filter. Qed.

Lemma series_find_In (s : Series) (idx : string) :
  In idx (series_index s) -> exists v, series_find s idx = Some v.
Proof.
  induction s as [|[l v] s IH]; simpl; [tauto|].
  intros [->|Hin].
  - rewrite String.eqb_refl. eauto.
  - destruct (String.eqb l idx); eauto.
Qed.

Lemma const_labels_In (s : Series) (idx : string) :
  In idx (const_labels s) ->
  In idx (series_index s) /\ startswith idx "const[" = true.
Proof. unfold const_labels. intros H. apply filter_In in H. exact H. Qed.

Lemma series_getitem_const_of (s : Series) (r : Z) :
  In (const_key r) (series_index s) ->
  series_getitem s (const_key r) = Ok (const_of s r).
Proof.
  intros Hin. destruct (series_find_In _ _ Hin) as [v Hv].
  unfold series_getitem, const_of, series_get. rewrite Hv. reflexivity.
Qed.

Lemma dict_set_fresh {V} (d : list (Z * V)) (k : Z) (v : V) :
  ~ In k (map fst d) -> dict_set d k v = (d ++ [(k, v)])%list.
Proof.
  induction d as [|[k' v'] d IH]; simpl; intros Hk; [reflexivity|].
  destruct (Z.eqb_spec k' k) as [->|Hne]; [tauto|].
  rewrite IH by tauto. reflexivity.
Qed.

Lemma record_const_const_key (s : Series) (d : list (Z * float64)) (r : Z) :
  In (const_key r) (series_index s) ->
  record_const s d (const_key r) = Ok (dict_set d r (const_of s r)).
Proof.
  intros Hin. unfold record_const.
  rewrite regime_index_const_key, bind_Ok.
  rewrite series_getitem_const_of by exact Hin. reflexivity.
Qed.

(** Distinct canonical keys are recorded one after the other. *)
Lemma record_consts (s : Series) (rs : list Z) :
  forall d,
    List.NoDup rs ->
    (forall r, In r rs -> ~ In r (map fst d)) ->
    (forall r, In r rs -> In (const_key r) (series_index s)) ->
    for_each (record_const s) (map const_key rs) d
    = Ok (d ++ map (fun r => (r, const_of s r)) rs)%list.
Proof.
  induction rs as [|r rs IH]; intros d Hnd Hfresh Hin.
  - simpl. rewrite app_nil_r. reflexivity.
  - inversion Hnd as [|? ? Hr Hnd']; subst.
    rewrite map_cons, for_each_cons.
    rewrite record_const_const_key by (apply Hin; left; reflexivity).
    rewrite bind_Ok.
    rewrite dict_set_fresh by (apply Hfresh; left; reflexivity).
    rewrite IH.
    + rewrite <- app_assoc. reflexivity.
    + exact Hnd'.
    + intros r' Hr'. rewrite map_app, in_app_iff. simpl.
      intros [H|[H|[]]]; [apply (Hfresh r'); [right; exact Hr' | exact H]|].
      subst. tauto.
    + intros r' Hr'. apply Hin. right. exact Hr'.
Qed.

Lemma dict_getitem_tabulated {V} (f : Z -> V) (rs : list Z) (r : Z) :
  In r rs -> dict_getitem (map (fun r => (r, f r)) rs) r = Ok (f r).
Proof.
  induction rs as [|r' rs IH]; simpl; [tauto|].
  intros Hin. destruct (Z.eqb_spec r' r) as [->|Hne]; [reflexivity|].
  apply IH. destruct Hin; [congruence|assumption].
Qed.

Lemma keys_tabulated {V} (f : Z -> V) (rs rs' : list Z) :
  incl rs' rs ->
  map_result (fun x => k ← dict_getitem (map (fun r => (r, f r)) rs) x; Ok (k, x)) rs'
  = Ok (map (fun r => (f r, r)) rs').
Proof.
  induction rs' as [|r rs' IH]; intros Hincl; simpl; [reflexivity|].
  rewrite dict_getitem_tabulated by (apply Hincl; left; reflexivity). simpl.
  rewrite IH by (intros x Hx; apply Hincl; right; exact Hx). reflexivity.
Qed.

(** With canonical keys for distinct regimes, the function sorts the
    regimes by their constants and unpacks the result. *)
Lemma identify_3_regimes_canonical (s : Series) (rs : list Z) :
  List.NoDup rs -> const_labels s = map const_key rs ->
  identify_3_regimes s
  = match map snd (sort_keyed F64.ltb (map (fun r => (const_of s r, r)) rs)) with
    | [bear_reg; chop_reg; bull_reg] =>
        Ok [("Bull", bull_reg); ("Bear", bear_reg); ("Chop", chop_reg)]
    | _ => Raise (ValueError "wrong number of values to unpack (expected 3)")
    end.
Proof.
  intros Hnd Hlabels. unfold identify_3_regimes.
  rewrite const_vals_unfold, Hlabels, record_consts.
  - simpl. rewrite map_map. simpl. rewrite map_id.
    unfold sorted. rewrite keys_tabulated by (intros x Hx; exact Hx).
    reflexivity.
  - exact Hnd.
  - simpl. tauto.
  - intros r Hr. apply (const_labels_In s). rewrite Hlabels.
    apply in_map. exact Hr.
Qed.

(** C2.  When the series has keys [const[i]], [const[j]], [const[k]] for
    exactly three distinct regime indices, [identify_3_regimes] returns
    [{"Bull": .., "Bear": .., "Chop": ..}] whose three values are a
    permutation of the three indices; when the three constants are numbers
    (none is NaN) they ascend from Bear over Chop to Bull: the lowest
    constant is Bear, the middle one Chop, the highest Bull.  For
    [const[0]=-0.01, const[1]=0.03, const[2]=0.001] the result is
    [{"Bull": 1, "Bear": 0, "Chop": 2}]. *)
Theorem identify_3_regimes_ranks (s : Series) (i j k : Z) :
  three_regimes s i j k ->
  (exists bull_reg bear_reg chop_reg,
      identify_3_regimes s
      = Ok [("Bull", bull_reg); ("Bear", bear_reg); ("Chop", chop_reg)] /\
      Permutation [bear_reg; chop_reg; bull_reg] [i; j; k] /\
      (F64.is_nan (const_of s i) = false ->
       F64.is_nan (const_of s j) = false ->
       F64.is_nan (const_of s k) = false ->
       F64.leb (const_of s bear_reg) (const_of s chop_reg) = true /\
       F64.leb (const_of s chop_reg) (const_of s bull_reg) = true /\
       F64.leb (const_of s bear_reg) (const_of s bull_reg) = true))
  /\ identify_3_regimes example_estimates = Ok [("Bull", 1); ("Bear", 0); ("Chop", 2)].
Proof.
  intros (_ & _ & _ & Hij & Hik & Hjk & Hperm).
  split; [|vm_compute; reflexivity].
  change [const_key i; const_key j; const_key k]
    with (map const_key [i; j; k]) in Hperm.
  apply Permutation_map_inv in Hperm as (rs & Hlabels & Hrs).
  assert (List.NoDup [i; j; k]) as Hnd0.
  { repeat constructor; simpl; intuition congruence. }
  assert (List.NoDup rs) as Hnd by (eapply Permutation_NoDup; eassumption).
  rewrite (identify_3_regimes_canonical s rs Hnd Hlabels).
  set (keyed := map (fun r => (const_of s r, r)) rs).
  pose proof (sort_keyed_perm F64.ltb keyed) as Hsp.
  assert (Forall (fun p => fst p = const_of s (snd p)) (sort_keyed F64.ltb keyed)) as Hval.
  { eapply Permutation_Forall; [symmetry; exact Hsp|].
    apply List.Forall_forall. intros p Hp. apply in_map_iff in Hp as (r & <- & _).
    reflexivity. }
  assert (Permutation (map snd (sort_keyed F64.ltb keyed)) [i; j; k]) as Hout.
  { rewrite Hsp. unfold keyed. rewrite map_map. simpl. rewrite map_id.
    symmetry. exact Hrs. }
  destruct (sort_keyed F64.ltb keyed) as [|[vx x] [|[vy y] [|[vz z] [|? ?]]]] eqn:Es;
    try (apply Permutation_length in Hout; simpl in Hout; discriminate).
  simpl in Hout.
  exists z, x, y. split; [reflexivity|]. split; [exact Hout|].
  intros Hi Hj Hk.
  assert (Forall (fun p => F64.is_nan (fst p) = false) keyed) as Hnan.
  { apply List.Forall_forall. intros p Hp. apply in_map_iff in Hp as (r & <- & Hr).
    simpl. apply (Permutation_in _ (Permutation_sym Hrs)) in Hr.
    simpl in Hr. destruct Hr as [<-|[<-|[<-|[]]]]; assumption. }
  pose proof (sort_keyed_ascending keyed Hnan) as Hsorted. rewrite Es in Hsorted.
  inversion Hval as [|? ? Ex Hval1]; subst. inversion Hval1 as [|? ? Ey Hval2]; subst.
  inversion Hval2 as [|? ? Ez _]; subst. simpl in Ex, Ey, Ez. subst vx vy vz.
  inversion Hsorted as [|? ? Hs1 Hx]; subst.
  inversion Hx as [|? ? Hxy Hx']; subst. inversion Hx' as [|? ? Hxz _]; subst.
  inversion Hs1 as [|? ? _ Hy]; subst. inversion Hy as [|? ? Hyz _]; subst.
  simpl in Hxy, Hxz, Hyz.
  repeat split; assumption.
Qed.

Lemma identify_3_regimes_ranks_witness :
  exists bull_reg bear_reg chop_reg,
    identify_3_regimes example_estimates
    = Ok [("Bull", bull_reg); ("Bear", bear_reg); ("Chop", chop_reg)] /\
    Permutation [bear_reg; chop_reg; bull_reg] [0; 1; 2] /\
    F64.leb (const_of example_estimates bear_reg) (const_of example_estimates chop_reg) = true /\
    F64.leb (const_of example_estimates chop_reg) (const_of example_estimates bull_reg) = true /\
    F64.leb (const_of example_estimates bear_reg) (const_of example_estimates bull_reg) = true.
Proof.
  destruct (proj1 (identify_3_regimes_ranks example_estimates 0 1 2
                     ltac:(unfold three_regimes; repeat split; try lia;
                           vm_compute; reflexivity)))
    as (bull_reg & bear_reg & chop_reg & Hret & Hperm & Hord).
  exists bull_reg, bear_reg, chop_reg.
  split; [exact Hret|]. split; [exact Hperm|].
  apply Hord; vm_compute; reflexivity.
Defined.

(** C2 does not hold for every series with three regime constants: a
    constant that is NaN is below and above nothing.  In
    [const[0] = 1.0, const[1] = NaN, const[2] = 0.0] no constant is below
    the one before it, the sort leaves the regimes in index order, and the
    result is [{"Bull": 2, "Bear": 0, "Chop": 1}]: Bear has the highest
    constant and Bull the lowest. *)
Lemma identify_3_regimes_nan_constant :
  three_regimes nan_estimates 0 1 2 /\
  identify_3_regimes nan_estimates = Ok [("Bull", 2); ("Bear", 0); ("Chop", 1)] /\
  F64.ltb (const_of nan_estimates 2) (const_of nan_estimates 0) = true /\
  F64.leb (const_of nan_estimates 0) (const_of nan_estimates 1) = false.
Proof.
  split; [|repeat split; vm_compute; reflexivity].
  unfold three_regimes. repeat split; try lia. vm_compute. reflexivity.
Qed.

(** *** When [identify_3_regimes] raises *)

Lemma py_int_raises (s : string) (e : py_exn) :
  py_int s = Raise e -> e = invalid_literal.
Proof.
  unfold py_int.
  destruct (match skip_spaces s with
            | String "+" r => (false, r)
            | String "-" r => (true, r)
            | _ => (false, skip_spaces s)
            end) as [neg s2].
  destruct (scan_digits AtStart 0 s2) as [[v rest]|]; [|congruence].
  destruct (skip_spaces rest); congruence.
Qed.

Lemma split_nonempty (c : ascii) (s : string) :
  exists w ws, split c s = w :: ws.
Proof.
  induction s as [|a s (w & ws & IH)]; simpl; [eauto|].
  destruct (Ascii.eqb a c); [eauto|]. rewrite IH. eauto.
Qed.

Lemma startswith_const (idx : string) :
  startswith idx "const[" = true -> exists t, idx = "const[" ++ t.
Proof.
  unfold startswith. intros H.
  do 6 (destruct idx as [|? idx]; [discriminate|];
        simpl in H;
        match type of H with
        | (if ?c then _ else _) = true => destruct c; [subst|discriminate]
        end).
  exists idx. reflexivity.
Qed.

Lemma regime_index_raises (idx : string) (e : py_exn) :
  startswith idx "const[" = true ->
  regime_index idx = Raise e -> e = invalid_literal.
Proof.
  intros Hs. destruct (startswith_const _ Hs) as [t ->].
  unfold regime_index. rewrite split_const_prefix.
  destruct (split_nonempty "[" t) as (w & ws & ->).
  simpl. apply py_int_raises.
Qed.

Lemma dict_set_keys {V} (d : list (Z * V)) (k : Z) (v : V) :
  map fst (dict_set d k v) = add_key (map fst d) k.
Proof.
  unfold add_key. induction d as [|[k' v'] d IH]; simpl; [reflexivity|].
  destruct (k' =? k); simpl; [reflexivity|].
  rewrite IH. destruct (existsb (fun k'0 => k'0 =? k) (map fst d)); reflexivity.
Qed.

(** The dict comprehension fails where reading an index fails, and
    otherwise collects the indices read, each once. *)
Lemma record_all (s : Series) (l : list string) :
  (forall idx, In idx l -> In idx (series_index s)) ->
  forall d,
    match map_result regime_index l with
    | Ok idxs =>
        exists d', for_each (record_const s) l d = Ok d'
                   /\ map fst d' = fold_left add_key idxs (map fst d)
    | Raise e => for_each (record_const s) l d = Raise e
    end.
Proof.
  induction l as [|idx l IH]; intros Hin d.
  - simpl. eauto.
  - rewrite for_each_cons. simpl map_result.
    destruct (regime_index idx) as [r|e] eqn:Er.
    + destruct (series_find_In s idx (Hin idx (or_introl eq_refl))) as [v Hv].
      assert (record_const s d idx = Ok (dict_set d r v)) as ->.
      { unfold record_const, series_getitem. rewrite Er, Hv. reflexivity. }
      rewrite !bind_Ok.
      specialize (IH (fun i Hi => Hin i (or_intror Hi)) (dict_set d r v)).
      destruct (map_result regime_index l) as [idxs|e]; simpl.
      * destruct IH as (d' & Hd' & Hk). exists d'. split; [exact Hd'|].
        rewrite Hk, dict_set_keys. reflexivity.
      * exact IH.
    + assert (record_const s d idx = Raise e) as ->.
      { unfold record_const. rewrite Er. reflexivity. }
      reflexivity.
Qed.

Lemma add_key_In (ks : list Z) (k x : Z) :
  In x (add_key ks k) <-> In x ks \/ x = k.
Proof.
  unfold add_key. destruct (existsb (fun k' => k' =? k) ks) eqn:E.
  - split; [tauto|]. intros [H| ->]; [exact H|].
    apply existsb_exists in E as (y & Hy & Heq).
    apply Z.eqb_eq in Heq. subst. exact Hy.
  - rewrite in_app_iff. simpl. intuition.
Qed.

Lemma add_key_NoDup (ks : list Z) (k : Z) :
  List.NoDup ks -> List.NoDup (add_key ks k).
Proof.
  intros Hnd. unfold add_key.
  destruct (existsb (fun k' => k' =? k) ks) eqn:E; [exact Hnd|].
  apply List.NoDup_app; [exact Hnd | repeat constructor; simpl; tauto |].
  intros x Hx [Hk|[]]. subst x.
  assert (existsb (fun k' => k' =? k) ks = true) as E'.
  { apply existsb_exists. exists k. split; [exact Hx | apply Z.eqb_refl]. }
  congruence.
Qed.

Lemma fold_add_key (idxs : list Z) :
  forall ks,
    List.NoDup ks ->
    List.NoDup (fold_left add_key idxs ks)
    /\ forall x, In x (fold_left add_key idxs ks) <-> In x ks \/ In x idxs.
Proof.
  induction idxs as [|k idxs IH]; intros ks Hnd; simpl.
  - split; [exact Hnd | tauto].
  - destruct (IH (add_key ks k) (add_key_NoDup _ _ Hnd)) as [H1 H2].
    split; [exact H1|]. intros x. rewrite H2, add_key_In. intuition.
Qed.

Lemma fold_add_key_length (idxs : list Z) :
  length (fold_left add_key idxs []) = distinct_count idxs.
Proof.
  unfold distinct_count.
  destruct (fold_add_key idxs [] (List.NoDup_nil Z)) as [Hnd Hin].
  apply Permutation_length, NoDup_Permutation.
  - apply NoDup_ListNoDup, Hnd.
  - apply NoDup_remove_dups.
  - intros x. rewrite elem_of_remove_dups, !list_elem_of_In, Hin.
    simpl. tauto.
Qed.

Lemma dict_getitem_In {V} (d : list (Z * V)) (k : Z) :
  In k (map fst d) -> exists v, dict_getitem d k = Ok v.
Proof.
  induction d as [|[k' v'] d IH]; simpl; [tauto|].
  intros Hin. destruct (Z.eqb_spec k' k); [eauto|].
  apply IH. destruct Hin; [congruence|assumption].
Qed.

Lemma sorted_by_const_length (d : list (Z * float64)) :
  exists l, sorted F64.ltb (fun r => dict_getitem d r) (map fst d) = Ok l
            /\ length l = length d.
Proof.
  unfold sorted.
  assert (forall ks, incl ks (map fst d) ->
                     exists keyed,
                       map_result (fun x => k ← dict_getitem d x; Ok (k, x)) ks = Ok keyed
                       /\ length keyed = length ks) as H.
  { induction ks as [|k ks IH]; intros Hincl; simpl; [eauto|].
    destruct (dict_getitem_In d k (Hincl k (or_introl eq_refl))) as [v ->].
    destruct (IH (fun x Hx => Hincl x (or_intror Hx))) as (keyed & -> & Hlen).
    simpl. eexists. split; [reflexivity|]. simpl. congruence. }
  destruct (H (map fst d) (incl_refl _)) as (keyed & -> & Hlen).
  simpl. eexists. split; [reflexivity|].
  rewrite length_map, sort_keyed_length, Hlen, length_map. reflexivity.
Qed.

(** The outcome of [identify_3_regimes] on any series: reading a regime
    index may fail, and otherwise everything depends on how many
    different indices were read. *)
Lemma identify_3_regimes_outcome (s : Series) :
  match parsed_indices s with
  | Raise e => e = invalid_literal /\ identify_3_regimes s = Raise invalid_literal
  | Ok idxs =>
      if Nat.eqb (distinct_count idxs) 3
      then exists m, identify_3_regimes s = Ok m
      else identify_3_regimes s = Raise unpack_error
  end.
Proof.
  unfold parsed_indices, identify_3_regimes. rewrite const_vals_unfold.
  pose proof (record_all s (const_labels s)
                (fun idx H => proj1 (const_labels_In s idx H)) []) as Hrec.
  destruct (map_result regime_index (const_labels s)) as [idxs|e] eqn:Hparse.
  - destruct Hrec as (d & -> & Hkeys). rewrite bind_Ok.
    destruct (sorted_by_const_length d) as (l & -> & Hlen). rewrite bind_Ok.
    assert (length l = distinct_count idxs) as Hl.
    { rewrite Hlen, <- (length_map fst d), Hkeys. apply fold_add_key_length. }
    rewrite <- Hl.
    destruct l as [|a [|b [|c [|? ?]]]]; simpl; try reflexivity. eauto.
  - assert (e = invalid_literal) as ->.
    { clear Hrec. revert e Hparse.
      assert (forall l, (forall idx, In idx l -> startswith idx "const[" = true) ->
                        forall e, map_result regime_index l = Raise e ->
                                  e = invalid_literal) as H.
      { induction l as [|idx l IH]; intros Hl e; simpl; [discriminate|].
        destruct (regime_index idx) as [r|e'] eqn:E; simpl.
        - destruct (map_result regime_index l) as [?|e'] eqn:E'; simpl; [discriminate|].
          intros [= <-]. apply IH; [|reflexivity].
          intros i Hi. apply Hl. right. exact Hi.
        - intros [= <-]. eapply regime_index_raises; [|exact E].
          apply Hl. left. reflexivity. }
      apply H. intros idx Hidx. apply (const_labels_In s idx Hidx). }
    rewrite Hrec. split; reflexivity.
Qed.

(** C9, as the code has it.  Whenever the [const[] labels are not read,
    by [int()] applied to the text after the first bracket without its
    closing brackets, as exactly three distinct regime indices,
    [identify_3_regimes] raises a [ValueError] instead of returning a
    mapping: too few or too many regimes fail at the unpacking, and a
    text that is no integer literal fails in [int()]. *)
Theorem identify_3_regimes_raises (s : Series) :
  ~ (exists idxs, parsed_indices s = Ok idxs /\ distinct_count idxs = 3%nat) ->
  exists msg, identify_3_regimes s = Raise (ValueError msg).
Proof.
  intros Hnot. pose proof (identify_3_regimes_outcome s) as H.
  destruct (parsed_indices s) as [idxs|e].
  - destruct (Nat.eqb_spec (distinct_count idxs) 3) as [E|E].
    + exfalso. apply Hnot. eauto.
    + eexists. exact H.
  - destruct H as [_ H]. eexists. exact H.
Qed.

Lemma identify_3_regimes_raises_witness :
  exists msg, identify_3_regimes two_regime_estimates = Raise (ValueError msg).
Proof.
  apply (identify_3_regimes_raises two_regime_estimates).
  intros (idxs & Hp & Hc). vm_compute in Hp. injection Hp as <-.
  vm_compute in Hc. discriminate.
Defined.

(** The converse: three distinct indices read give a mapping. *)
Lemma identify_3_regimes_returns (s : Series) (idxs : list Z) :
  parsed_indices s = Ok idxs -> distinct_count idxs = 3%nat ->
  exists m, identify_3_regimes s = Ok m.
Proof.
  intros Hp Hc. pose proof (identify_3_regimes_outcome s) as H.
  rewrite Hp, Hc in H. exact H.
Qed.

(** C9 as stated fails: a label that is not of the form [const[<i>]] can
    still be read as a regime index.  [const[0][1]] is read as regime 0,
    so these estimates do not have keys [const[i]] for three regimes, and
    yet a mapping is returned. *)
Lemma identify_3_regimes_accepts_malformed_key :
  (~ exists i j k, three_regimes malformed_estimates i j k)
  /\ identify_3_regimes malformed_estimates
     = Ok [("Bull", 1); ("Bear", 0); ("Chop", 2)].
Proof.
  split; [|vm_compute; reflexivity].
  intros (i & j & k & _ & _ & _ & _ & _ & _ & Hperm).
  assert (In "const[0][1]" [const_key i; const_key j; const_key k]) as Hin.
  { eapply Permutation_in; [exact Hperm|]. vm_compute. left. reflexivity. }
  assert (forall n, "const[0][1]" <> const_key n) as Hne.
  { intros n Hn. pose proof (regime_index_const_key n) as Hr.
    rewrite <- Hn in Hr. vm_compute in Hr. injection Hr as <-.
    vm_compute in Hn. discriminate. }
  simpl in Hin. destruct Hin as [H|[H|[H|[]]]]; symmetry in H; exact (Hne _ H).
Qed.

(** ** [detect_tsm_classifications] *)

Lemma classify_column_codes (col : signal_column) :
  forall gt, classify_column col gt = zip_with classification_code col gt.
Proof.
  unfold classify_column.
  induction col as [|p col IH]; intros [|t gt]; try reflexivity.
  simpl. f_equal; [|apply IH].
  destruct p as [[|[?|?|]|[?|?|]]|], t as [[|[?|?|]|[?|?|]]|]; reflexivity.
Qed.

(** The four masked assignments act on each column by itself. *)
Lemma classify_frame (gt : signal_column) (df : signal_frame) :
  let gt_broadcast := repeat gt (length df) in
  set_where
    (set_where
       (set_where
          (set_where (empty_like df)
             (mask_and (frame_eq df 1) (frame_eq gt_broadcast 1)) 1)
          (mask_and (frame_eq df (-1)) (frame_eq gt_broadcast (-1))) 2)
       (mask_and (frame_eq df 1) (frame_eq gt_broadcast (-1))) 3)
    (mask_and (frame_eq df (-1)) (frame_eq gt_broadcast 1)) 4
  = map (fun col => classify_column col gt) df.
Proof.
  induction df as [|col df IH]; [reflexivity|].
  simpl in *. f_equal. exact IH.
Qed.

Lemma detect_tsm_classifications_columns (df : signal_frame) (gt : signal_column) :
  df <> [] ->
  detect_tsm_classifications df gt
  = Ok (map (fun col => zip_with classification_code col gt) df).
Proof.
  intros Hne. unfold detect_tsm_classifications.
  assert (concat_columns (repeat gt (length df)) = Ok (repeat gt (length df))) as ->.
  { destruct df; [congruence | reflexivity]. }
  rewrite bind_Ok. cbv zeta.
  rewrite (classify_frame gt df). f_equal.
  apply map_ext. intros col. apply classify_column_codes.
Qed.

(** A frame without columns leaves [pd.concat] nothing to concatenate. *)
Lemma detect_tsm_classifications_no_columns (gt : signal_column) :
  detect_tsm_classifications [] gt = Raise (ValueError "No objects to concatenate").
Proof. reflexivity. Qed.

Lemma nth_error_zip_with {A B C} (f : A -> B -> C) (l : list A) :
  forall (k : list B) (n : nat) (a : A) (b : B),
    nth_error l n = Some a -> nth_error k n = Some b ->
    nth_error (zip_with f l k) n = Some (f a b).
Proof.
  induction l as [|x l IH]; intros [|y k] [|n] a b Ha Hb; simpl in *;
    try discriminate.
  - congruence.
  - eapply IH; eassumption.
Qed.

(** C3.  For a signal frame with at least one column and a ground truth
    with one value per row, [detect_tsm_classifications] returns a frame of
    the same shape in which the cell of every column and row holds the
    code of its (prediction, truth) pair: 1 for (1,1), 2 for (-1,-1), 3 for
    (1,-1), 4 for (-1,1), and nothing for any other pair, missing or
    out-of-domain values included.  The single column [1, -1, 1, -1]
    against the truth [1, 1, -1, -1] gives [1, 4, 3, 2]. *)
Theorem detect_tsm_classifications_codes
    (target_df : signal_frame) (ground_truth : signal_column) :
  target_df <> [] ->
  one_value_per_row target_df ground_truth ->
  (exists result,
      detect_tsm_classifications target_df ground_truth = Ok result /\
      length result = length target_df /\
      one_value_per_row result ground_truth /\
      (forall c r col prediction truth,
          nth_error target_df c = Some col ->
          nth_error col r = Some prediction ->
          nth_error ground_truth r = Some truth ->
          exists rcol, nth_error result c = Some rcol /\
                       nth_error rcol r = Some (classification_code prediction truth)))
  /\ detect_tsm_classifications
       [[Some 1; Some (-1); Some 1; Some (-1)]] [Some 1; Some 1; Some (-1); Some (-1)]
     = Ok [[Some 1; Some 4; Some 3; Some 2]].
Proof.
  intros Hne Hshape. split; [|reflexivity].
  eexists. split; [apply detect_tsm_classifications_columns, Hne|].
  split; [apply length_map|]. split.
  - unfold one_value_per_row in *. apply List.Forall_forall.
    intros rcol Hr. apply in_map_iff in Hr as (col & <- & Hcol).
    rewrite List.Forall_forall in Hshape. specialize (Hshape col Hcol).
    rewrite length_zip_with. lia.
  - intros c r col prediction truth Hc Hp Ht.
    exists (zip_with classification_code col ground_truth). split.
    + apply (map_nth_error (fun col => zip_with classification_code col ground_truth)).
      exact Hc.
    + eapply nth_error_zip_with; eassumption.
Qed.

Lemma detect_tsm_classifications_codes_witness :
  exists rcol,
    nth_error [[Some 4; Some 2; Some 3; Some 1];
               [Some 1; None; Some 3; Some 4]] 1 = Some rcol /\
    nth_error rcol 2 = Some (classification_code (Some 1) (Some (-1))).
Proof.
  destruct (proj1 (detect_tsm_classifications_codes
                     [[Some (-1); Some (-1); Some 1; Some 1];
                      [Some 1; Some 7; Some 1; Some (-1)]]
                     [Some 1; Some (-1); Some (-1); Some 1]
                     ltac:(discriminate)
                     ltac:(repeat constructor)))
    as (result & Hres & _ & _ & Hcell).
  vm_compute in Hres. injection Hres as <-.
  apply (Hcell 1%nat 2%nat [Some 1; Some 7; Some 1; Some (-1)]); reflexivity.
Defined.

(** C3 does not hold for every signal frame: for a frame that has rows but
    no column the list handed to [pd.concat] is empty, and the function
    raises instead of returning an empty frame of the same shape. *)
Lemma detect_tsm_classifications_without_columns :
  one_value_per_row [] two_row_truth /\
  detect_tsm_classifications [] two_row_truth = Raise nothing_to_concatenate.
Proof. split; [constructor|reflexivity]. Qed.

(** ** [build_3_regimes_summary_table] *)

Lemma Permutation_3_inv {A} (l : list A) (a b c : A) :
  Permutation l [a; b; c] ->
  l = [a; b; c] \/ l = [a; c; b] \/ l = [b; a; c] \/
  l = [b; c; a] \/ l = [c; a; b] \/ l = [c; b; a].
Proof.
  intros H. pose proof (Permutation_length H) as Hlen.
  destruct l as [|x [|y [|z [|? ?]]]]; try discriminate.
  assert (In a [x; y; z]) as Ha.
  { eapply Permutation_in; [symmetry; exact H | left; reflexivity]. }
  simpl in Ha. destruct Ha as [->|[->|[->|[]]]].
  - apply Permutation_cons_inv, Permutation_sym, Permutation_length_2_inv in H.
    destruct H as [[= <- <-]|[= <- <-]]; tauto.
  - rewrite (perm_swap a x [z]) in H.
    apply Permutation_cons_inv, Permutation_sym, Permutation_length_2_inv in H.
    destruct H as [[= <- <-]|[= <- <-]]; tauto.
  - assert (Permutation [x; y; a] (a :: [x; y])) as Hrot.
    { change [x; y; a] with ([x; y] ++ [a])%list. apply Permutation_app_comm. }
    rewrite Hrot in H.
    apply Permutation_cons_inv, Permutation_sym, Permutation_length_2_inv in H.
    destruct H as [[= <- <-]|[= <- <-]]; tauto.
Qed.

(** Whatever the order of its entries, an assignment of the three labels
    is iterated over as Bull, Bear, Chop. *)
Lemma sorted_label_map (label_map : label_map_t) (i j k : Z) :
  Permutation label_map [("Bull", i); ("Bear", j); ("Chop", k)] ->
  sorted Nat.ltb (fun x : string * Z => list_index (fst x) label_order) label_map
  = Ok [("Bull", i); ("Bear", j); ("Chop", k)].
Proof.
  intros H. apply Permutation_3_inv in H.
  destruct H as [->|[->|[->|[->|[->| ->]]]]]; reflexivity.
Qed.

Lemma sqrt_unless_nan (x : float64) :
  (if negb (F64.is_nan x) then F64.sqrt x else x) = F64.sqrt x.
Proof. destruct x as [?|?| |? ? ?]; reflexivity. Qed.

Lemma series_get_looked_up (s : Series) (idx : string) :
  series_get s idx F64.nan = looked_up s idx.
Proof. reflexivity. Qed.

(** The four rows of one regime. *)
Lemma make_rows (estimates tvalues pvalues : Series) (label : string) (reg : Z) :
  map (fun r => ((r_Regime r, r_Parameter r),
                 [r_Estimate r; r_t_statistic r; r_p_value r]))
      (map (make_row estimates tvalues pvalues label reg) param_keys)
  = regime_rows estimates tvalues pvalues label reg.
Proof.
  unfold param_keys, make_row, regime_rows, param_key. simpl map.
  rewrite !series_get_looked_up.
  change (String.eqb "const" "sigma2") with false.
  change (String.eqb "ar.L1" "sigma2") with false.
  change (String.eqb "ar.L2" "sigma2") with false.
  change (String.eqb "sigma2" "sigma2") with true.
  cbv beta iota. simpl andb. cbv iota.
  rewrite sqrt_unless_nan. reflexivity.
Qed.

(** The whole table for an assignment of the three labels. *)
Lemma summary_table_rows (estimates tvalues pvalues : Series)
    (label_map : label_map_t) (i j k : Z) :
  Permutation label_map [("Bull", i); ("Bear", j); ("Chop", k)] ->
  build_3_regimes_summary_table estimates tvalues pvalues label_map
  = Ok {| index_names := ["Regime"; "Parameter"];
          columns := ["Estimate"; "t-statistic"; "p-value"];
          rows := (regime_rows estimates tvalues pvalues "Bull" i
                   ++ regime_rows estimates tvalues pvalues "Bear" j
                   ++ regime_rows estimates tvalues pvalues "Chop" k)%list |}.
Proof.
  intros H. unfold build_3_regimes_summary_table.
  rewrite (sorted_label_map _ _ _ _ H), bind_Ok.
  rewrite <- !make_rows. reflexivity.
Qed.

(** C4.  For an assignment of the three labels to regime indices, the row
    (label, parameter) of the table holds what is found under the key
    [<prefix>[<regime-index>]] in the estimates, the t-statistics and the
    p-values, with prefixes [const], [ar.L1], [ar.L2], [sigma2]; a key that
    is missing gives not-a-number, and the call returns a table instead of
    raising.  Only in the [sigma2] row, and only for the Estimate, the
    square root is taken.  With [sigma2[1] = 0.04] the Estimate of the
    Std. Deviation row is [0.2] for whichever label is mapped to regime 1. *)
Theorem build_3_regimes_summary_table_rows
    (estimates tvalues pvalues : Series) (label_map : label_map_t) (i j k : Z) :
  Permutation label_map [("Bull", i); ("Bear", j); ("Chop", k)] ->
  exists df,
    build_3_regimes_summary_table estimates tvalues pvalues label_map = Ok df /\
    (forall label reg prefix pretty,
        In (label, reg) label_map -> In (prefix, pretty) param_keys ->
        let idx := param_key prefix reg in
        frame_loc df label pretty
        = Some [if String.eqb prefix "sigma2"
                then F64.sqrt (looked_up estimates idx)
                else looked_up estimates idx;
                looked_up tvalues idx;
                looked_up pvalues idx]) /\
    (forall s idx, series_find s idx = None -> looked_up s idx = F64.nan) /\
    (forall label,
        In (label, 1) label_map ->
        series_find estimates "sigma2[1]" = Some (F64.dec 4 2) ->
        frame_loc df label "Std. Deviation"
        = Some [F64.dec 2 1; looked_up tvalues "sigma2[1]"; looked_up pvalues "sigma2[1]"]).
Proof.
  intros Hperm. eexists. split; [apply (summary_table_rows _ _ _ _ _ _ _ Hperm)|].
  assert (forall label reg,
             In (label, reg) label_map ->
             (label, reg) = ("Bull", i) \/ (label, reg) = ("Bear", j)
             \/ (label, reg) = ("Chop", k)) as Hcases.
  { intros label reg Hin. apply (Permutation_in _ Hperm) in Hin.
    simpl in Hin. intuition. }
  split; [|split].
  - intros label reg prefix pretty Hin Hkey idx. subst idx.
    simpl in Hkey.
    destruct (Hcases _ _ Hin) as [[= -> ->]|[[= -> ->]|[= -> ->]]];
      destruct Hkey as [[= <- <-]|[[= <- <-]|[[= <- <-]|[[= <- <-]|[]]]]];
      reflexivity.
  - intros s idx H. unfold looked_up. rewrite H. reflexivity.
  - intros label Hin Hsigma.
    assert (F64.sqrt (looked_up estimates (param_key "sigma2" 1)) = F64.dec 2 1) as Hsqrt.
    { unfold looked_up. change (param_key "sigma2" 1) with "sigma2[1]".
      rewrite Hsigma. vm_compute. reflexivity. }
    destruct (Hcases _ _ Hin) as [[= -> <-]|[[= -> <-]|[= -> <-]]];
      unfold frame_loc; simpl; rewrite Hsqrt; reflexivity.
Qed.

Lemma build_3_regimes_summary_table_rows_witness :
  exists df,
    build_3_regimes_summary_table sigma2_example_estimates [] []
      [("Chop", 2); ("Bull", 1); ("Bear", 0)] = Ok df /\
    frame_loc df "Bull" "Std. Deviation" = Some [F64.dec 2 1; F64.nan; F64.nan].
Proof.
  destruct (build_3_regimes_summary_table_rows sigma2_example_estimates [] []
              [("Chop", 2); ("Bull", 1); ("Bear", 0)] 1 0 2)
    as (df & Hdf & _ & _ & Hex).
  - apply (Permutation_app_comm [("Chop", 2)] [("Bull", 1); ("Bear", 0)]).
  - exists df. split; [exact Hdf|].
    apply (Hex "Bull"); [simpl; tauto | reflexivity].
Defined.

(** C8.  For an assignment of the labels Bull, Bear, Chop to regime
    indices, in whatever order its entries come, the table has the twelve
    rows Bull, Bear, Chop, each with Constant, AR(1), AR(2), Std. Deviation
    in that order, indexed by (Regime, Parameter), and the three columns
    Estimate, t-statistic, p-value. *)
Theorem build_3_regimes_summary_table_order
    (estimates tvalues pvalues : Series) (label_map : label_map_t) (i j k : Z) :
  i <> j -> i <> k -> j <> k ->
  Permutation label_map [("Bull", i); ("Bear", j); ("Chop", k)] ->
  exists df,
    build_3_regimes_summary_table estimates tvalues pvalues label_map = Ok df /\
    map fst (rows df) = summary_index /\
    index_names df = ["Regime"; "Parameter"] /\
    columns df = ["Estimate"; "t-statistic"; "p-value"] /\
    Forall (fun r => length (snd r) = length (columns df)) (rows df).
Proof.
  intros _ _ _ Hperm.
  eexists. split; [apply (summary_table_rows _ _ _ _ _ _ _ Hperm)|].
  simpl. repeat split; try reflexivity. repeat constructor.
Qed.

Lemma build_3_regimes_summary_table_order_witness :
  exists df,
    build_3_regimes_summary_table sigma2_example_estimates [] []
      [("Bear", 0); ("Bull", 1); ("Chop", 2)] = Ok df /\
    map fst (rows df) = summary_index.
Proof.
  destruct (build_3_regimes_summary_table_order sigma2_example_estimates [] []
              [("Bear", 0); ("Bull", 1); ("Chop", 2)] 1 0 2)
    as (df & Hdf & Hidx & _); try lia.
  - apply perm_swap.
  - exists df. split; assumption.
Defined.

(** ** [build_3_regimes_summary] *)

(** C6.  The wrapper gives what the two steps give: the label assignment
    of [identify_3_regimes] on the estimates, then
    [build_3_regimes_summary_table] with that assignment; when the first
    step raises, so does the wrapper, with the same exception. *)
Theorem build_3_regimes_summary_two_steps (estimates tvalues pvalues : Series) :
  build_3_regimes_summary estimates tvalues pvalues
  = summary_in_two_steps estimates tvalues pvalues
  /\ (forall label_map,
         identify_3_regimes estimates = Ok label_map ->
         build_3_regimes_summary estimates tvalues pvalues
         = build_3_regimes_summary_table estimates tvalues pvalues label_map)
  /\ (forall e,
         identify_3_regimes estimates = Raise e ->
         build_3_regimes_summary estimates tvalues pvalues = Raise e).
Proof.
  unfold build_3_regimes_summary, summary_in_two_steps.
  split; [|split].
  - destruct (identify_3_regimes estimates); reflexivity.
  - intros label_map ->. reflexivity.
  - intros e ->. reflexivity.
Qed.

Lemma build_3_regimes_summary_two_steps_witness :
  build_3_regimes_summary sigma2_example_estimates [] []
  = build_3_regimes_summary_table sigma2_example_estimates [] []
      [("Bull", 1); ("Bear", 0); ("Chop", 2)].
Proof.
  apply (proj1 (proj2 (build_3_regimes_summary_two_steps
                         sigma2_example_estimates [] []))).
  vm_compute. reflexivity.
Defined.

(** * Further properties of the code *)

(** ** [identify_2_regimes]: what it returns, prints and raises *)

Lemma round_raises (x : float64) (d : Z) (e : py_exn) :
  F64.round x d = Raise e -> e = OverflowError.
Proof.
  unfold F64.round. destruct x as [?|?| |s m ex]; try discriminate.
  destruct (F64.NDIGITS_MAX <? d); [discriminate|].
  destruct (d <? F64.NDIGITS_MIN); [discriminate|].
  destruct (F64.is_infinite _); congruence.
Qed.

Lemma round_if_raises (decimals : option Z) (x : float64) (e : py_exn) :
  round_if decimals x = Raise e ->
  e = OverflowError /\ exists d, decimals = Some d.
Proof.
  destruct decimals as [d|]; simpl; [|discriminate].
  intros H. split; [eapply round_raises; exact H | eauto].
Qed.

Lemma build_descriptors_raises decimals p11 p21 b1 b2 var1 var2 e :
  build_descriptors decimals p11 p21 b1 b2 var1 var2 = Raise e ->
  e = OverflowError /\ exists d, decimals = Some d.
Proof.
  unfold build_descriptors. intros H.
  repeat match type of H with
         | (_ ← ?m; _) = Raise _ =>
             let E := fresh "E" in
             destruct m eqn:E; simpl in H;
             [|injection H as <-; eapply round_if_raises; exact E]
         end.
  discriminate.
Qed.

(** The [try] block either reads the six values or stops at the first
    key that is missing. *)
Lemma read_params_cases (params : gmap string float64) :
  (exists p11 p21 b1 b2 var1 var2,
      params !! "p[0->0]" = Some p11 /\ params !! "p[1->0]" = Some p21 /\
      params !! "const[0]" = Some b1 /\ params !! "const[1]" = Some b2 /\
      params !! "sigma2[0]" = Some var1 /\ params !! "sigma2[1]" = Some var2 /\
      read_params params = Ok (p11, p21, b1, b2, var1, var2))
  \/ (exists key, In key required_keys /\ params !! key = None /\
                  read_params params = Raise (KeyError key)).
Proof.
  unfold read_params, params_getitem.
  destruct (params !! "p[0->0]") as [p11|] eqn:E1;
    [|right; exists "p[0->0]"; simpl; tauto].
  destruct (params !! "p[1->0]") as [p21|] eqn:E2;
    [|right; exists "p[1->0]"; simpl; tauto].
  destruct (params !! "const[0]") as [b1|] eqn:E3;
    [|right; exists "const[0]"; simpl; tauto].
  destruct (params !! "const[1]") as [b2|] eqn:E4;
    [|right; exists "const[1]"; simpl; tauto].
  destruct (params !! "sigma2[0]") as [var1|] eqn:E5;
    [|right; exists "sigma2[0]"; simpl; tauto].
  destruct (params !! "sigma2[1]") as [var2|] eqn:E6;
    [|right; exists "sigma2[1]"; simpl; tauto].
  left. exists p11, p21, b1, b2, var1, var2. repeat split; reflexivity.
Qed.

(** Every way through the function, with what it prints and returns. *)
Lemma identify_2_regimes_cases (params : gmap string float64) (decimals : option Z) :
  (exists key, In key required_keys /\ params !! key = None /\
               identify_2_regimes params decimals
               = {| printed := [missing_message key]; returned := Ok None |})
  \/ (exists d, decimals = Some d /\
                identify_2_regimes params decimals
                = {| printed := []; returned := Raise OverflowError |})
  \/ (exists p11 p21 b1 b2 var1 var2 A B,
         read_params params = Ok (p11, p21, b1, b2, var1, var2) /\
         build_descriptors decimals p11 p21 b1 b2 var1 var2 = Ok (A, B) /\
         (bull_bear A B /\
          identify_2_regimes params decimals
          = {| printed := []; returned := Ok (Some {| bull := A; bear := B |}) |}
          \/ bull_bear B A /\
             identify_2_regimes params decimals
             = {| printed := []; returned := Ok (Some {| bull := B; bear := A |}) |}
          \/ ~ bull_bear A B /\ ~ bull_bear B A /\
             identify_2_regimes params decimals
             = {| printed := [mixed_message]; returned := Ok None |})).
Proof.
  destruct (read_params_cases params)
    as [(p11 & p21 & b1 & b2 & var1 & var2 & _ & _ & _ & _ & _ & _ & Hr)
       |(key & Hin & Hnone & Hr)].
  - destruct (build_descriptors decimals p11 p21 b1 b2 var1 var2) as [[A B]|e] eqn:Hb.
    + right. right. exists p11, p21, b1, b2, var1, var2, A, B.
      split; [exact Hr|]. split; [exact Hb|].
      rewrite (identify_2_regimes_built _ _ _ _ _ _ _ _ _ _ Hr Hb).
      destruct (first_is_bull A B) eqn:F1.
      * left. split; [apply first_is_bull_iff, F1 | reflexivity].
      * destruct (second_is_bull A B) eqn:F2.
        -- right. left. split; [apply second_is_bull_iff, F2 | reflexivity].
        -- right. right. repeat split.
           ++ intros F. apply first_is_bull_iff in F. congruence.
           ++ intros F. apply second_is_bull_iff in F. congruence.
    + right. left. destruct (build_descriptors_raises _ _ _ _ _ _ _ _ Hb) as [-> [d ->]].
      exists d. split; [reflexivity|].
      unfold identify_2_regimes. rewrite Hr, Hb. reflexivity.
  - left. exists key. repeat split; try assumption.
    unfold identify_2_regimes. rewrite Hr. reflexivity.
Qed.

(** X1.  Whatever the parameters and the rounding, a result that is
    returned has a bull regime with positive beta0, a bear regime with
    negative beta0, and a bull variance strictly below the bear variance. *)
Theorem identify_2_regimes_result_is_bull_bear
    (params : gmap string float64) (decimals : option Z) (r : regimes) :
  returned (identify_2_regimes params decimals) = Ok (Some r) ->
  positive_beta0 (bull r) /\ negative_beta0 (bear r) /\
  lower_variance (bull r) (bear r).
Proof.
  intros Hret.
  destruct (identify_2_regimes_cases params decimals)
    as [(key & _ & _ & H)|[(d & _ & H)|(p11 & p21 & b1 & b2 & var1 & var2 & A & B & _ & _ & H)]].
  - rewrite H in Hret. discriminate.
  - rewrite H in Hret. discriminate.
  - destruct H as [[F H]|[[F H]|(_ & _ & H)]]; rewrite H in Hret; simpl in Hret;
      [| |discriminate]; injection Hret as <-; exact F.
Qed.

Lemma identify_2_regimes_result_is_bull_bear_witness :
  positive_beta0 (regime_A (F64.dec 2 2) (F64.dec 1 2) (F64.dec 9 1) (F64.dec 1 1))
  /\ negative_beta0 (regime_B (F64.dec (-3) 2) (F64.dec 5 2) (F64.dec 8 1) (F64.dec 2 1))
  /\ lower_variance
       (regime_A (F64.dec 2 2) (F64.dec 1 2) (F64.dec 9 1) (F64.dec 1 1))
       (regime_B (F64.dec (-3) 2) (F64.dec 5 2) (F64.dec 8 1) (F64.dec 2 1)).
Proof.
  apply (identify_2_regimes_result_is_bull_bear example_params default_decimals
           {| bull := regime_A (F64.dec 2 2) (F64.dec 1 2) (F64.dec 9 1) (F64.dec 1 1);
              bear := regime_B (F64.dec (-3) 2) (F64.dec 5 2) (F64.dec 8 1) (F64.dec 2 1) |}).
  vm_compute. reflexivity.
Defined.

(** X2.  The only exception that leaves the function is the
    [OverflowError] of [round], so only when [decimals] is a number;
    a missing key never escapes as a [KeyError], and with
    [decimals=None] nothing is raised at all. *)
Theorem identify_2_regimes_only_raises_overflow
    (params : gmap string float64) (decimals : option Z) (e : py_exn) :
  returned (identify_2_regimes params decimals) = Raise e ->
  e = OverflowError /\ (exists d, decimals = Some d) /\
  printed (identify_2_regimes params decimals) = [].
Proof.
  intros Hret.
  destruct (identify_2_regimes_cases params decimals)
    as [(key & _ & _ & H)|[(d & Hd & H)|(p11 & p21 & b1 & b2 & var1 & var2 & A & B & _ & _ & H)]].
  - rewrite H in Hret. discriminate.
  - rewrite H in *. simpl in *. injection Hret as <-. eauto.
  - destruct H as [[_ H]|[[_ H]|(_ & _ & H)]]; rewrite H in Hret; discriminate.
Qed.

Lemma identify_2_regimes_only_raises_overflow_witness :
  OverflowError = OverflowError /\ (exists d, Some (-308) = Some d) /\
  printed (identify_2_regimes huge_constant_params (Some (-308))) = [].
Proof.
  apply (identify_2_regimes_only_raises_overflow huge_constant_params (Some (-308))).
  vm_compute. reflexivity.
Defined.

(** X3.  The function is silent when it succeeds and when it raises, and
    prints exactly one line when it returns [None]: the mixed-regimes
    message, or the missing-parameter message for a required key that is
    absent. *)
Theorem identify_2_regimes_prints_once
    (params : gmap string float64) (decimals : option Z) :
  match returned (identify_2_regimes params decimals) with
  | Ok (Some _) | Raise _ => printed (identify_2_regimes params decimals) = []
  | Ok None =>
      printed (identify_2_regimes params decimals) = [mixed_message]
      \/ exists key, In key required_keys /\ params !! key = None /\
                     printed (identify_2_regimes params decimals) = [missing_message key]
  end.
Proof.
  destruct (identify_2_regimes_cases params decimals)
    as [(key & Hin & Hnone & H)|[(d & _ & H)|(p11 & p21 & b1 & b2 & var1 & var2 & A & B & _ & _ & H)]].
  - rewrite H. simpl. right. exists key. auto.
  - rewrite H. reflexivity.
  - destruct H as [[_ H]|[[_ H]|(_ & _ & H)]]; rewrite H; simpl; auto.
Qed.

(** X4.  Only the six required keys are read: parameters that agree on
    them give the same printed lines and the same result, whatever else
    they hold. *)
Theorem identify_2_regimes_ignores_other_keys
    (params params' : gmap string float64) (decimals : option Z) :
  (forall key, In key required_keys -> params !! key = params' !! key) ->
  identify_2_regimes params decimals = identify_2_regimes params' decimals.
Proof.
  intros H. unfold identify_2_regimes, read_params, params_getitem.
  rewrite (H "p[0->0]"), (H "p[1->0]"), (H "const[0]"), (H "const[1]"),
    (H "sigma2[0]"), (H "sigma2[1]") by (simpl; tauto).
  reflexivity.
Qed.

Lemma identify_2_regimes_ignores_other_keys_witness :
  identify_2_regimes example_params default_decimals
  = identify_2_regimes example_params_with_extra default_decimals.
Proof.
  apply (identify_2_regimes_ignores_other_keys example_params example_params_with_extra).
  intros key Hin. simpl in Hin.
  destruct Hin as [<-|[<-|[<-|[<-|[<-|[<-|[]]]]]]]; vm_compute; reflexivity.
Defined.

Lemma ltb_nan_l (x : float64) : F64.ltb S754_nan x = false.
Proof. reflexivity. Qed.

Lemma ltb_nan_r (x : float64) : F64.ltb x S754_nan = false.
Proof. destruct x as [?|?| |? ? ?]; reflexivity. Qed.

Lemma ltb_irrefl (x : float64) : F64.ltb x x = false.
Proof.
  unfold F64.ltb, SFltb. pose proof (SFcompare_antisym x x) as H.
  destruct (SFcompare x x) as [[]|]; simpl in H; try reflexivity; discriminate.
Qed.

Lemma round_if_nan (decimals : option Z) (x : float64) :
  F64.is_nan x = true -> round_if decimals x = Ok x.
Proof. destruct x, decimals; try discriminate; reflexivity. Qed.

Lemma round_if_zero (decimals : option Z) (x : float64) :
  is_zero x = true -> round_if decimals x = Ok x.
Proof. destruct x, decimals; try discriminate; reflexivity. Qed.

Lemma nan_no_sign (x : float64) :
  F64.is_nan x = true ->
  F64.gtb x (F64.of_int 0) = false /\ F64.ltb x (F64.of_int 0) = false.
Proof. destruct x; try discriminate. split; reflexivity. Qed.

Lemma zero_no_sign (x : float64) :
  is_zero x = true ->
  F64.gtb x (F64.of_int 0) = false /\ F64.ltb x (F64.of_int 0) = false.
Proof. destruct x; try discriminate. split; reflexivity. Qed.

(** X5.  Degenerate parameters are never classified.  When a constant is
    NaN or a zero, when a variance is NaN, or when the two variances are
    equal, no bull/bear result is returned, whatever the rounding; without
    rounding the function then prints the mixed-regimes message and
    returns [None]. *)
Theorem identify_2_regimes_degenerate
    params decimals p11 p21 b1 b2 var1 var2 :
  params !! "p[0->0]" = Some p11 -> params !! "p[1->0]" = Some p21 ->
  params !! "const[0]" = Some b1 -> params !! "const[1]" = Some b2 ->
  params !! "sigma2[0]" = Some var1 -> params !! "sigma2[1]" = Some var2 ->
  F64.is_nan b1 = true \/ F64.is_nan b2 = true \/
  is_zero b1 = true \/ is_zero b2 = true \/
  F64.is_nan var1 = true \/ F64.is_nan var2 = true \/ var1 = var2 ->
  (forall r, returned (identify_2_regimes params decimals) <> Ok (Some r))
  /\ (decimals = None ->
      identify_2_regimes params decimals
      = {| printed := [mixed_message]; returned := Ok None |}).
Proof.
  intros H1 H2 H3 H4 H5 H6 Hdeg.
  pose proof (read_params_Ok _ _ _ _ _ _ _ H1 H2 H3 H4 H5 H6) as Hr.
  assert (forall A B,
             build_descriptors decimals p11 p21 b1 b2 var1 var2 = Ok (A, B) ->
             ~ bull_bear A B /\ ~ bull_bear B A) as Hno.
  { intros A B Hb.
    destruct (build_descriptors_inv _ _ _ _ _ _ _ _ _ Hb)
      as (q11 & q21 & q12 & q22 & c1 & c2 & v1 & v2
          & _ & _ & _ & _ & E5 & E6 & E7 & E8 & -> & ->).
    unfold bull_bear, positive_beta0, negative_beta0, lower_variance. simpl.
    destruct Hdeg as [N|[N|[N|[N|[N|[N|N]]]]]].
    - rewrite (round_if_nan _ _ N) in E5. injection E5 as <-.
      destruct (nan_no_sign _ N). split; intros (? & ? & ?); congruence.
    - rewrite (round_if_nan _ _ N) in E6. injection E6 as <-.
      destruct (nan_no_sign _ N). split; intros (? & ? & ?); congruence.
    - rewrite (round_if_zero _ _ N) in E5. injection E5 as <-.
      destruct (zero_no_sign _ N). split; intros (? & ? & ?); congruence.
    - rewrite (round_if_zero _ _ N) in E6. injection E6 as <-.
      destruct (zero_no_sign _ N). split; intros (? & ? & ?); congruence.
    - rewrite (round_if_nan _ _ N) in E7. injection E7 as <-.
      destruct var1; try discriminate.
      split; intros (? & ? & F); [rewrite ltb_nan_l in F | rewrite ltb_nan_r in F];
        discriminate.
    - rewrite (round_if_nan _ _ N) in E8. injection E8 as <-.
      destruct var2; try discriminate.
      split; intros (? & ? & F); [rewrite ltb_nan_r in F | rewrite ltb_nan_l in F];
        discriminate.
    - subst var2. rewrite E7 in E8. injection E8 as <-.
      split; intros (? & ? & F); rewrite ltb_irrefl in F; discriminate. }
  split.
  - intros r Hret.
    destruct (identify_2_regimes_cases params decimals)
      as [(key & _ & _ & H)|[(d & _ & H)|(? & ? & ? & ? & ? & ? & A & B & Hr' & Hb & H)]].
    + rewrite H in Hret. discriminate.
    + rewrite H in Hret. discriminate.
    + rewrite Hr in Hr'. injection Hr' as <- <- <- <- <- <-.
      destruct (Hno A B Hb) as [NA NB].
      destruct H as [[F _]|[[F _]|(_ & _ & H)]]; [tauto|tauto|].
      rewrite H in Hret. discriminate.
  - intros ->.
    destruct (identify_2_regimes_cases params None)
      as [(key & Hin & Hnone & _)|[(d & Hd & _)|(? & ? & ? & ? & ? & ? & A & B & Hr' & Hb & H)]].
    + simpl in Hin. destruct Hin as [<-|[<-|[<-|[<-|[<-|[<-|[]]]]]]]; congruence.
    + discriminate.
    + rewrite Hr in Hr'. injection Hr' as <- <- <- <- <- <-.
      destruct (Hno A B Hb) as [NA NB].
      destruct H as [[F _]|[[F _]|(_ & _ & H)]]; [tauto|tauto|exact H].
Qed.

Lemma identify_2_regimes_degenerate_witness :
  identify_2_regimes nan_constant_params None
  = {| printed := [mixed_message]; returned := Ok None |}.
Proof.
  apply (identify_2_regimes_degenerate nan_constant_params None
           (F64.dec 9 1) (F64.dec 2 1) F64.nan (F64.dec (-3) 2)
           (F64.dec 1 2) (F64.dec 5 2));
    try (vm_compute; reflexivity).
  left. reflexivity.
Defined.

(** ** [identify_3_regimes]: what its result looks like and depends on *)

Lemma identify_3_regimes_shape (s : Series) (m : label_map_t) :
  identify_3_regimes s = Ok m ->
  exists bull_reg bear_reg chop_reg,
    m = [("Bull", bull_reg); ("Bear", bear_reg); ("Chop", chop_reg)].
Proof.
  unfold identify_3_regimes. intros H.
  destruct (const_vals s) as [d|]; [|discriminate]. rewrite bind_Ok in H.
  destruct (sorted F64.ltb (fun r => dict_getitem d r) (map fst d))
    as [[|a [|b [|c [|? ?]]]]|]; simpl in H; try discriminate.
  injection H as <-. eauto.
Qed.

Lemma keyed_snd {V} (d : list (Z * V)) (ks : list Z) (keyed : list (V * Z)) :
  map_result (fun x => k ← dict_getitem d x; Ok (k, x)) ks = Ok keyed ->
  map snd keyed = ks.
Proof.
  revert keyed. induction ks as [|k ks IH]; intros keyed; simpl.
  - intros [= <-]. reflexivity.
  - destruct (dict_getitem d k) as [v|]; simpl; [|discriminate].
    destruct (map_result _ ks) as [keyed'|]; simpl; [|discriminate].
    intros [= <-]. simpl. f_equal. apply IH. reflexivity.
Qed.

Lemma sorted_by_const_perm (d : list (Z * float64)) :
  exists l, sorted F64.ltb (fun r => dict_getitem d r) (map fst d) = Ok l
            /\ Permutation l (map fst d).
Proof.
  destruct (sorted_by_const_length d) as (l & Hl & _). exists l. split; [exact Hl|].
  unfold sorted in Hl.
  destruct (map_result _ (map fst d)) as [keyed|] eqn:E; [|discriminate].
  rewrite bind_Ok in Hl. injection Hl as <-.
  rewrite (sort_keyed_perm F64.ltb keyed). rewrite (keyed_snd _ _ _ E). reflexivity.
Qed.

(** X6.  Whenever [identify_3_regimes] returns, the mapping has the three
    entries Bull, Bear, Chop, in this order, their three regime indices
    are pairwise different, and each of them was read from a [const[]
    label of the series. *)
Theorem identify_3_regimes_distinct (s : Series) (m : label_map_t) :
  identify_3_regimes s = Ok m ->
  exists bull_reg bear_reg chop_reg idxs,
    m = [("Bull", bull_reg); ("Bear", bear_reg); ("Chop", chop_reg)] /\
    bull_reg <> bear_reg /\ bull_reg <> chop_reg /\ bear_reg <> chop_reg /\
    parsed_indices s = Ok idxs /\
    In bull_reg idxs /\ In bear_reg idxs /\ In chop_reg idxs.
Proof.
  intros H. unfold identify_3_regimes in H. rewrite const_vals_unfold in H.
  pose proof (record_all s (const_labels s)
                (fun idx Hi => proj1 (const_labels_In s idx Hi)) []) as Hrec.
  fold (parsed_indices s) in Hrec.
  destruct (parsed_indices s) as [idxs|e].
  2:{ rewrite Hrec in H. discriminate. }
  destruct Hrec as (d & Hd & Hkeys). rewrite Hd, bind_Ok in H.
  destruct (sorted_by_const_perm d) as (l & Hl & Hperm).
  rewrite Hl, bind_Ok in H.
  destruct (fold_add_key idxs [] (List.NoDup_nil Z)) as [Hnd Hin].
  simpl in Hkeys. rewrite <- Hkeys in Hnd, Hin.
  destruct l as [|x [|y [|z [|? ?]]]]; try discriminate.
  injection H as <-.
  assert (List.NoDup [x; y; z]) as Hnd3.
  { eapply Permutation_NoDup; [symmetry; exact Hperm | exact Hnd]. }
  assert (forall r, In r [x; y; z] -> In r idxs) as Hsub.
  { intros r Hr. apply (Permutation_in _ Hperm) in Hr. apply Hin in Hr.
    simpl in Hr. tauto. }
  exists z, x, y, idxs. split; [reflexivity|].
  inversion Hnd3 as [|? ? Hx Hnd2]; subst. inversion Hnd2 as [|? ? Hy _]; subst.
  simpl in Hx, Hy.
  repeat split; try (apply Hsub; simpl; tauto); intros ->; tauto.
Qed.

Lemma identify_3_regimes_distinct_witness :
  exists bull_reg bear_reg chop_reg idxs,
    [("Bull", 1); ("Bear", 0); ("Chop", 2)]
    = [("Bull", bull_reg); ("Bear", bear_reg); ("Chop", chop_reg)] /\
    bull_reg <> bear_reg /\ bull_reg <> chop_reg /\ bear_reg <> chop_reg /\
    parsed_indices example_estimates = Ok idxs /\
    In bull_reg idxs /\ In bear_reg idxs /\ In chop_reg idxs.
Proof.
  apply (identify_3_regimes_distinct example_estimates).
  vm_compute. reflexivity.
Defined.

Lemma for_each_ext_in {A S} (f g : S -> A -> result S) (l : list A) :
  (forall s x, In x l -> f s x = g s x) ->
  forall s, for_each f l s = for_each g l s.
Proof.
  induction l as [|x l IH]; intros H s; [reflexivity|].
  rewrite !for_each_cons, (H s x) by (left; reflexivity).
  destruct (g s x); simpl; [|reflexivity].
  apply IH. intros s' y Hy. apply H. right. exact Hy.
Qed.

Lemma const_labels_entries (s : Series) :
  const_labels s = series_index (const_entries s).
Proof.
  unfold const_labels, const_entries, series_index.
  induction s as [|[l v] s IH]; [reflexivity|].
  simpl. destruct (startswith l "const["); simpl; rewrite IH; reflexivity.
Qed.

Lemma const_entries_idem (s : Series) :
  const_entries (const_entries s) = const_entries s.
Proof.
  unfold const_entries. induction s as [|[l v] s IH]; [reflexivity|].
  simpl. destruct (startswith l "const[") eqn:E; simpl; rewrite ?E, IH; reflexivity.
Qed.

Lemma series_find_const_entries (s : Series) (idx : string) :
  startswith idx "const[" = true ->
  series_find (const_entries s) idx = series_find s idx.
Proof.
  intros Hidx. unfold const_entries.
  induction s as [|[l v] s IH]; [reflexivity|].
  simpl. destruct (startswith l "const[") eqn:E; simpl.
  - rewrite IH. reflexivity.
  - destruct (String.eqb_spec l idx) as [->|_]; [congruence | exact IH].
Qed.

(** The labelling only looks at the [const[] entries. *)
Lemma identify_3_regimes_const_entries (s : Series) :
  identify_3_regimes (const_entries s) = identify_3_regimes s.
Proof.
  unfold identify_3_regimes. rewrite !const_vals_unfold.
  rewrite (const_labels_entries (const_entries s)), const_entries_idem,
    <- const_labels_entries.
  rewrite (for_each_ext_in (record_const (const_entries s)) (record_const s)).
  - reflexivity.
  - intros d idx Hidx. unfold record_const, series_getitem.
    rewrite series_find_const_entries by apply (const_labels_In s idx Hidx).
    reflexivity.
Qed.

(** X7.  The labelling depends on the [const[] entries only: two series
    with the same [const[] entries, in the same order, are labelled alike,
    whatever other parameters (variances, autoregressive terms, transition
    probabilities) they hold and wherever these sit in the index. *)
Theorem identify_3_regimes_ignores_other_entries (s s' : Series) :
  const_entries s = const_entries s' ->
  identify_3_regimes s = identify_3_regimes s'.
Proof.
  intros H.
  rewrite <- (identify_3_regimes_const_entries s),
    <- (identify_3_regimes_const_entries s'), H.
  reflexivity.
Qed.

Lemma identify_3_regimes_ignores_other_entries_witness :
  identify_3_regimes example_estimates = identify_3_regimes sigma2_example_estimates.
Proof.
  apply (identify_3_regimes_ignores_other_entries
           example_estimates sigma2_example_estimates).
  vm_compute. reflexivity.
Defined.

Lemma ltb_not_nan (x y : float64) :
  F64.ltb x y = true -> F64.is_nan x = false /\ F64.is_nan y = false.
Proof.
  destruct x as [?|?| |? ? ?], y as [?|?| |? ? ?]; try discriminate;
    split; reflexivity.
Qed.

Lemma ltb_not_leb (x y : float64) : F64.ltb x y = true -> F64.leb y x = false.
Proof.
  unfold F64.ltb, F64.leb, SFltb, SFleb. rewrite (SFcompare_antisym x y).
  destruct (SFcompare x y) as [[]|]; simpl; intros H; try discriminate; reflexivity.
Qed.

(** The sorted regimes of a series with three canonical keys. *)
Lemma three_regimes_sorted (s : Series) (i j k : Z) :
  three_regimes s i j k ->
  F64.is_nan (const_of s i) = false ->
  F64.is_nan (const_of s j) = false ->
  F64.is_nan (const_of s k) = false ->
  exists bull_reg bear_reg chop_reg,
    identify_3_regimes s
    = Ok [("Bull", bull_reg); ("Bear", bear_reg); ("Chop", chop_reg)] /\
    Permutation [bear_reg; chop_reg; bull_reg] [i; j; k] /\
    F64.leb (const_of s bear_reg) (const_of s chop_reg) = true /\
    F64.leb (const_of s chop_reg) (const_of s bull_reg) = true /\
    F64.leb (const_of s bear_reg) (const_of s bull_reg) = true.
Proof.
  intros (_ & _ & _ & Hij & Hik & Hjk & Hperm) Hi Hj Hk.
  change [const_key i; const_key j; const_key k]
    with (map const_key [i; j; k]) in Hperm.
  apply Permutation_map_inv in Hperm as (rs & Hlabels & Hrs).
  assert (List.NoDup rs) as Hnd.
  { eapply Permutation_NoDup; [exact Hrs|].
    repeat constructor; simpl; intuition congruence. }
  rewrite (identify_3_regimes_canonical s rs Hnd Hlabels).
  set (keyed := map (fun r => (const_of s r, r)) rs).
  assert (Forall (fun p => F64.is_nan (fst p) = false /\ fst p = const_of s (snd p))
            keyed) as Hkeyed.
  { apply List.Forall_forall. intros p Hp. apply in_map_iff in Hp as (r & <- & Hr).
    simpl. split; [|reflexivity].
    apply (Permutation_in _ (Permutation_sym Hrs)) in Hr.
    simpl in Hr. destruct Hr as [<-|[<-|[<-|[]]]]; assumption. }
  pose proof (sort_keyed_perm F64.ltb keyed) as Hsp.
  pose proof (sort_keyed_ascending keyed
                (Forall_impl _ _ _ Hkeyed (fun p H => proj1 H))) as Hsorted.
  assert (Forall (fun p => fst p = const_of s (snd p)) (sort_keyed F64.ltb keyed)) as Hval.
  { eapply Permutation_Forall; [symmetry; exact Hsp|].
    eapply Forall_impl; [exact Hkeyed|]. intros p H. exact (proj2 H). }
  assert (Permutation (map snd (sort_keyed F64.ltb keyed)) [i; j; k]) as Hout.
  { rewrite Hsp. unfold keyed. rewrite map_map. simpl. rewrite map_id.
    symmetry. exact Hrs. }
  destruct (sort_keyed F64.ltb keyed) as [|[vx x] [|[vy y] [|[vz z] [|? ?]]]];
    try (apply Permutation_length in Hout; simpl in Hout; discriminate).
  simpl in Hout.
  inversion Hval as [|? ? Ex Hval1]; subst. inversion Hval1 as [|? ? Ey Hval2]; subst.
  inversion Hval2 as [|? ? Ez _]; subst. simpl in Ex, Ey, Ez. subst vx vy vz.
  inversion Hsorted as [|? ? Hs1 Hx]; subst.
  inversion Hx as [|? ? Hxy Hx']; subst. inversion Hx' as [|? ? Hxz _]; subst.
  inversion Hs1 as [|? ? _ Hy]; subst. inversion Hy as [|? ? Hyz _]; subst.
  simpl in Hxy, Hxz, Hyz.
  exists z, x, y. repeat split; assumption.
Qed.

(** X8.  With three constants in strict order the labelling is fixed by
    the values alone: the regime of the smallest constant is Bear, of the
    middle one Chop, of the largest Bull, wherever the three keys sit in
    the series. *)
Theorem identify_3_regimes_strict_order (s : Series) (i j k : Z) :
  three_regimes s i j k ->
  F64.ltb (const_of s i) (const_of s j) = true ->
  F64.ltb (const_of s j) (const_of s k) = true ->
  identify_3_regimes s = Ok [("Bull", k); ("Bear", i); ("Chop", j)].
Proof.
  intros H3 Lij Ljk.
  destruct (ltb_not_nan _ _ Lij) as [Ni Nj]. destruct (ltb_not_nan _ _ Ljk) as [_ Nk].
  destruct (three_regimes_sorted s i j k H3 Ni Nj Nk)
    as (bull_reg & bear_reg & chop_reg & -> & Hperm & Hbc & Hcb & Hbb).
  pose proof (ltb_not_leb _ _ Lij) as Gji.
  pose proof (ltb_not_leb _ _ Ljk) as Gkj.
  assert (F64.leb (const_of s k) (const_of s i) = false) as Gki.
  { destruct (F64.leb (const_of s k) (const_of s i)) eqn:E; [|reflexivity].
    pose proof (leb_trans _ _ _ E (ltb_leb _ _ Lij)). congruence. }
  apply Permutation_3_inv in Hperm.
  destruct Hperm as [H|[H|[H|[H|[H|H]]]]]; injection H as -> -> ->;
    try reflexivity; congruence.
Qed.

Lemma identify_3_regimes_strict_order_witness :
  identify_3_regimes example_estimates = Ok [("Bull", 1); ("Bear", 0); ("Chop", 2)].
Proof.
  apply (identify_3_regimes_strict_order example_estimates 0 2 1);
    try (vm_compute; reflexivity).
  unfold three_regimes. repeat split; try lia.
  apply (perm_skip (const_key 0)), perm_swap.
Defined.

(** X9.  Ties and NaN keep the order of the index.  When the three
    [const[] keys come in the order [a], [b], [c] and no later constant is
    strictly below an earlier one (as when constants are equal, or are
    NaN so that every comparison is false), Bear is the first regime,
    Chop the second and Bull the third. *)
Theorem identify_3_regimes_keeps_index_order (s : Series) (a b c : Z) :
  const_labels s = [const_key a; const_key b; const_key c] ->
  a <> b -> a <> c -> b <> c ->
  F64.ltb (const_of s b) (const_of s a) = false ->
  F64.ltb (const_of s c) (const_of s a) = false ->
  F64.ltb (const_of s c) (const_of s b) = false ->
  identify_3_regimes s = Ok [("Bull", c); ("Bear", a); ("Chop", b)].
Proof.
  intros Hlabels Hab Hac Hbc Lba Lca Lcb.
  rewrite (identify_3_regimes_canonical s [a; b; c]).
  - rewrite sort_keyed_one_run; [reflexivity|].
    repeat constructor; simpl; assumption.
  - repeat constructor; simpl; intuition congruence.
  - exact Hlabels.
Qed.

Lemma identify_3_regimes_keeps_index_order_witness :
  identify_3_regimes tied_estimates = Ok [("Bull", 1); ("Bear", 2); ("Chop", 0)].
Proof.
  apply (identify_3_regimes_keeps_index_order tied_estimates 2 0 1);
    try lia; vm_compute; reflexivity.
Defined.

Lemma index_after_bracket (w : string) (n : Z) :
  (part ← list_getitem (w :: split "[" (py_str n ++ "]")) 1;
   py_int (rstrip "]" part)) = Ok n.
Proof.
  pose proof (regime_index_const_key n) as H.
  unfold regime_index, const_key in H. rewrite split_const_prefix in H.
  exact H.
Qed.

(** X10.  The key format round-trips.  The key that the table builder
    forms for a parameter prefix and a regime index, [<prefix>[<index>]],
    is read back by the index expression of [identify_3_regimes] as that
    index, for each of the four prefixes and every integer. *)
Theorem regime_index_param_key (prefix pretty : string) (n : Z) :
  In (prefix, pretty) param_keys ->
  regime_index (param_key prefix n) = Ok n.
Proof.
  intros Hin. simpl in Hin.
  destruct Hin as [[= <- <-]|[[= <- <-]|[[= <- <-]|[[= <- <-]|[]]]]];
    unfold regime_index, param_key.
  - change (split "[" ("const" ++ "[" ++ py_str n ++ "]"))
      with ("const" :: split "[" (py_str n ++ "]")).
    apply index_after_bracket.
  - change (split "[" ("ar.L1" ++ "[" ++ py_str n ++ "]"))
      with ("ar.L1" :: split "[" (py_str n ++ "]")).
    apply index_after_bracket.
  - change (split "[" ("ar.L2" ++ "[" ++ py_str n ++ "]"))
      with ("ar.L2" :: split "[" (py_str n ++ "]")).
    apply index_after_bracket.
  - change (split "[" ("sigma2" ++ "[" ++ py_str n ++ "]"))
      with ("sigma2" :: split "[" (py_str n ++ "]")).
    apply index_after_bracket.
Qed.

Lemma regime_index_param_key_witness :
  regime_index (param_key "sigma2" 12) = Ok 12.
Proof.
  apply (regime_index_param_key "sigma2" "Std. Deviation" 12).
  simpl. tauto.
Defined.

(** ** [build_3_regimes_summary_table]: errors and partial assignments *)

Lemma list_index_raises (x : string) (l : list string) (e : py_exn) :
  list_index x l = Raise e -> e = not_in_list.
Proof.
  induction l as [|y l IH]; simpl.
  - intros [= <-]. reflexivity.
  - destruct (String.eqb y x); [discriminate|].
    destruct (list_index x l); simpl; [discriminate|].
    intros [= <-]. apply IH. reflexivity.
Qed.

Lemma list_index_In (x : string) (l : list string) :
  In x l <-> exists i, list_index x l = Ok i.
Proof.
  induction l as [|y l IH]; simpl.
  - split; [tauto | intros [i H]; discriminate].
  - destruct (String.eqb_spec y x) as [->|Hne].
    + split; eauto.
    + split.
      * intros [H|H]; [congruence|]. apply IH in H as [i ->]. simpl. eauto.
      * intros [i H]. right. apply IH.
        destruct (list_index x l); simpl in H; [eauto | discriminate].
Qed.

(** The keys of [sorted]: computed for every element, in order; the
    first one that raises stops the call. *)
Lemma keyed_cases {A K} (key : A -> result K) (l : list A) :
  (exists keyed,
      map_result (fun x => k ← key x; Ok (k, x)) l = Ok keyed /\
      map snd keyed = l /\ forall x, In x l -> exists k, key x = Ok k)
  \/ (exists x e,
         In x l /\ key x = Raise e /\
         map_result (fun x => k ← key x; Ok (k, x)) l = Raise e).
Proof.
  induction l as [|x l IH]; simpl.
  - left. exists []. repeat split. intros x [].
  - destruct (key x) as [k|e] eqn:E; simpl.
    + destruct IH as [(keyed & -> & Hsnd & Hall)|(y & e & Hy & Hey & ->)]; simpl.
      * left. eexists. split; [reflexivity|]. split; [simpl; congruence|].
        intros y [<-|Hy]; eauto.
      * right. exists y, e. auto.
    + right. exists x, e. auto.
Qed.

(** X11.  The table builder raises on an assignment it cannot lay out:
    a [ValueError] from [list.index] when some label is none of Bull,
    Bear, Chop, and the [KeyError] of [set_index] when the assignment is
    empty, since a frame made of no rows has no Regime and Parameter
    columns. *)
Theorem build_3_regimes_summary_table_errors
    (estimates tvalues pvalues : Series) (label_map : label_map_t) :
  ((exists label reg, In (label, reg) label_map /\ ~ In label label_order) ->
   build_3_regimes_summary_table estimates tvalues pvalues label_map
   = Raise not_in_list)
  /\ (label_map = [] ->
      build_3_regimes_summary_table estimates tvalues pvalues label_map
      = Raise nothing_to_index).
Proof.
  split.
  - intros (label & reg & Hin & Hnot).
    unfold build_3_regimes_summary_table, sorted.
    destruct (keyed_cases (fun x : string * Z => list_index (fst x) label_order) label_map)
      as [(keyed & _ & _ & Hall)|(x & e & _ & He & ->)].
    + exfalso. destruct (Hall _ Hin) as [k Hk]. apply Hnot.
      apply list_index_In. eauto.
    + apply list_index_raises in He. subst e. reflexivity.
  - intros ->. reflexivity.
Qed.

Lemma build_3_regimes_summary_table_errors_witness :
  build_3_regimes_summary_table [] [] [] [("Bull", 0); ("Flat", 1); ("Bear", 2)]
  = Raise not_in_list.
Proof.
  apply (proj1 (build_3_regimes_summary_table_errors [] [] []
                  [("Bull", 0); ("Flat", 1); ("Bear", 2)])).
  exists "Flat", 1. split; [simpl; tauto|].
  simpl. intros [H|[H|[H|[]]]]; discriminate.
Defined.

Lemma rows_of_items (estimates tvalues pvalues : Series) (items : list (string * Z)) :
  map (fun r => ((r_Regime r, r_Parameter r),
                 [r_Estimate r; r_t_statistic r; r_p_value r]))
      (flat_map (fun '(regime_label, reg) =>
                   map (make_row estimates tvalues pvalues regime_label reg) param_keys)
                items)
  = flat_map (fun x => regime_rows estimates tvalues pvalues (fst x) (snd x)) items.
Proof.
  induction items as [|[label reg] items IH]; [reflexivity|].
  cbn [flat_map fst snd]. rewrite map_app, make_rows, IH. reflexivity.
Qed.

(** X12.  Any non-empty assignment whose labels are among Bull, Bear,
    Chop is laid out, also one that leaves labels out: every entry
    contributes its four rows (Constant, AR(1), AR(2), Std. Deviation), so
    the table has four rows per entry, under the same index names and
    columns. *)
Theorem build_3_regimes_summary_table_partial
    (estimates tvalues pvalues : Series) (label_map : label_map_t) :
  label_map <> [] ->
  (forall label reg, In (label, reg) label_map -> In label label_order) ->
  exists df items,
    build_3_regimes_summary_table estimates tvalues pvalues label_map = Ok df /\
    Permutation items label_map /\
    rows df = flat_map (fun x => regime_rows estimates tvalues pvalues (fst x) (snd x))
                       items /\
    length (rows df) = (4 * length label_map)%nat /\
    index_names df = ["Regime"; "Parameter"] /\
    columns df = ["Estimate"; "t-statistic"; "p-value"].
Proof.
  intros Hne Hknown. unfold build_3_regimes_summary_table, sorted.
  destruct (keyed_cases (fun x : string * Z => list_index (fst x) label_order) label_map)
    as [(keyed & -> & Hsnd & _)|(x & e & Hx & He & _)].
  2:{ exfalso. destruct x as [label reg].
      apply Hknown, list_index_In in Hx as [i Hi]. cbn [fst] in He. congruence. }
  rewrite !bind_Ok.
  set (items := map snd (sort_keyed Nat.ltb keyed)).
  assert (Permutation items label_map) as Hperm.
  { unfold items. rewrite (sort_keyed_perm Nat.ltb keyed), Hsnd. reflexivity. }
  assert (forall l : list (string * Z),
             length (flat_map (fun x => regime_rows estimates tvalues pvalues
                                          (fst x) (snd x)) l)
             = (4 * length l)%nat) as Hlen.
  { induction l as [|x l IH]; [reflexivity|].
    cbn [flat_map]. rewrite length_app, IH. simpl. lia. }
  destruct items as [|[label reg] items'] eqn:Eitems.
  { apply Permutation_nil in Hperm. contradiction. }
  eexists. exists ((label, reg) :: items').
  split; [reflexivity|]. split; [exact Hperm|].
  cbn [rows index_names columns].
  rewrite (rows_of_items estimates tvalues pvalues ((label, reg) :: items')).
  repeat split. rewrite Hlen. apply Permutation_length in Hperm. rewrite Hperm.
  reflexivity.
Qed.

Lemma build_3_regimes_summary_table_partial_witness :
  exists df items,
    build_3_regimes_summary_table sigma2_example_estimates [] []
      [("Chop", 2); ("Bull", 1)] = Ok df /\
    Permutation items [("Chop", 2); ("Bull", 1)] /\
    rows df = flat_map (fun x => regime_rows sigma2_example_estimates [] []
                                   (fst x) (snd x)) items /\
    length (rows df) = (4 * 2)%nat /\
    index_names df = ["Regime"; "Parameter"] /\
    columns df = ["Estimate"; "t-statistic"; "p-value"].
Proof.
  apply (build_3_regimes_summary_table_partial sigma2_example_estimates [] []
           [("Chop", 2); ("Bull", 1)]).
  - discriminate.
  - intros label reg Hin. simpl in Hin.
    destruct Hin as [[= <- <-]|[[= <- <-]|[]]]; simpl; tauto.
Defined.

Lemma sqrt_negative (v : float64) :
  F64.ltb v (F64.of_int 0) = true -> F64.sqrt v = F64.nan.
Proof. destruct v as [[]|[]| |[] m e]; try discriminate; reflexivity. Qed.

(** X13.  A negative variance gives a not-a-number standard deviation,
    not an error: when the estimate found under [sigma2[<index>]] is below
    zero, the Estimate of the Std. Deviation row of the label mapped to
    that index is NaN, next to the t-statistic and the p-value as they
    were looked up. *)
Theorem build_3_regimes_summary_table_negative_variance
    (estimates tvalues pvalues : Series) (label_map : label_map_t) (i j k : Z)
    (label : string) (reg : Z) (v : float64) :
  Permutation label_map [("Bull", i); ("Bear", j); ("Chop", k)] ->
  In (label, reg) label_map ->
  series_find estimates (param_key "sigma2" reg) = Some v ->
  F64.ltb v (F64.of_int 0) = true ->
  exists df,
    build_3_regimes_summary_table estimates tvalues pvalues label_map = Ok df /\
    frame_loc df label "Std. Deviation"
    = Some [F64.nan;
            looked_up tvalues (param_key "sigma2" reg);
            looked_up pvalues (param_key "sigma2" reg)].
Proof.
  intros Hperm Hin Hfind Hneg.
  eexists. split; [apply (summary_table_rows _ _ _ _ _ _ _ Hperm)|].
  assert (F64.sqrt (looked_up estimates (param_key "sigma2" reg)) = F64.nan) as Hsqrt.
  { unfold looked_up. rewrite Hfind. apply sqrt_negative, Hneg. }
  apply (Permutation_in _ Hperm) in Hin. simpl in Hin.
  destruct Hin as [[= <- <-]|[[= <- <-]|[[= <- <-]|[]]]];
    unfold frame_loc, regime_rows; rewrite Hsqrt; reflexivity.
Qed.

Lemma build_3_regimes_summary_table_negative_variance_witness :
  exists df,
    build_3_regimes_summary_table negative_variance_estimates [] []
      [("Bull", 1); ("Bear", 0); ("Chop", 2)] = Ok df /\
    frame_loc df "Bull" "Std. Deviation"
    = Some [F64.nan; looked_up [] (param_key "sigma2" 1);
            looked_up [] (param_key "sigma2" 1)].
Proof.
  apply (build_3_regimes_summary_table_negative_variance
           negative_variance_estimates [] []
           [("Bull", 1); ("Bear", 0); ("Chop", 2)] 1 0 2 "Bull" 1 (F64.dec (-4) 2)).
  - apply Permutation_refl.
  - simpl. tauto.
  - vm_compute. reflexivity.
  - vm_compute. reflexivity.
Defined.

(** ** [build_3_regimes_summary]: the two steps fit together *)

(** X14.  The wrapper fails only where the labelling fails.  Whatever
    [identify_3_regimes] returns is an assignment the table builder lays
    out in full, with the twelve rows in their fixed order, and what it
    raises is what the wrapper raises; so the table step of the wrapper
    never raises. *)
Theorem build_3_regimes_summary_outcome (estimates tvalues pvalues : Series) :
  match identify_3_regimes estimates with
  | Ok label_map =>
      exists df,
        build_3_regimes_summary estimates tvalues pvalues = Ok df /\
        build_3_regimes_summary_table estimates tvalues pvalues label_map = Ok df /\
        map fst (rows df) = summary_index /\
        columns df = ["Estimate"; "t-statistic"; "p-value"]
  | Raise e => build_3_regimes_summary estimates tvalues pvalues = Raise e
  end.
Proof.
  unfold build_3_regimes_summary.
  destruct (identify_3_regimes estimates) as [m|e] eqn:E; [|reflexivity].
  destruct (identify_3_regimes_shape _ _ E) as (b & r & c & ->).
  rewrite bind_Ok.
  rewrite (summary_table_rows estimates tvalues pvalues _ b r c (Permutation_refl _)).
  eexists. repeat split; reflexivity.
Qed.

(** X15.  In the summary of three regimes whose constants are numbers,
    the Constant rows are ranked: the Estimate of Bull is the constant of
    the regime labelled Bull, and likewise for Chop and Bear, and
    Bear <= Chop <= Bull. *)
Theorem build_3_regimes_summary_ranks_constants
    (estimates tvalues pvalues : Series) (i j k : Z) :
  three_regimes estimates i j k ->
  F64.is_nan (const_of estimates i) = false ->
  F64.is_nan (const_of estimates j) = false ->
  F64.is_nan (const_of estimates k) = false ->
  exists df bull_reg bear_reg chop_reg,
    build_3_regimes_summary estimates tvalues pvalues = Ok df /\
    Permutation [bear_reg; chop_reg; bull_reg] [i; j; k] /\
    frame_loc df "Bull" "Constant"
    = Some [const_of estimates bull_reg;
            looked_up tvalues (const_key bull_reg);
            looked_up pvalues (const_key bull_reg)] /\
    frame_loc df "Chop" "Constant"
    = Some [const_of estimates chop_reg;
            looked_up tvalues (const_key chop_reg);
            looked_up pvalues (const_key chop_reg)] /\
    frame_loc df "Bear" "Constant"
    = Some [const_of estimates bear_reg;
            looked_up tvalues (const_key bear_reg);
            looked_up pvalues (const_key bear_reg)] /\
    F64.leb (const_of estimates bear_reg) (const_of estimates chop_reg) = true /\
    F64.leb (const_of estimates chop_reg) (const_of estimates bull_reg) = true.
Proof.
  intros H3 Hi Hj Hk.
  destruct (three_regimes_sorted estimates i j k H3 Hi Hj Hk)
    as (bull_reg & bear_reg & chop_reg & Hid & Hperm & Hbc & Hcb & _).
  unfold build_3_regimes_summary. rewrite Hid, bind_Ok.
  rewrite (summary_table_rows estimates tvalues pvalues _ bull_reg bear_reg chop_reg
             (Permutation_refl _)).
  eexists. exists bull_reg, bear_reg, chop_reg.
  split; [reflexivity|]. split; [exact Hperm|].
  repeat split; try assumption; reflexivity.
Qed.

Lemma build_3_regimes_summary_ranks_constants_witness :
  exists df bull_reg bear_reg chop_reg,
    build_3_regimes_summary example_estimates [] [] = Ok df /\
    Permutation [bear_reg; chop_reg; bull_reg] [0; 1; 2] /\
    frame_loc df "Bull" "Constant"
    = Some [const_of example_estimates bull_reg;
            looked_up [] (const_key bull_reg); looked_up [] (const_key bull_reg)] /\
    frame_loc df "Chop" "Constant"
    = Some [const_of example_estimates chop_reg;
            looked_up [] (const_key chop_reg); looked_up [] (const_key chop_reg)] /\
    frame_loc df "Bear" "Constant"
    = Some [const_of example_estimates bear_reg;
            looked_up [] (const_key bear_reg); looked_up [] (const_key bear_reg)] /\
    F64.leb (const_of example_estimates bear_reg) (const_of example_estimates chop_reg) = true /\
    F64.leb (const_of example_estimates chop_reg) (const_of example_estimates bull_reg) = true.
Proof.
  apply (build_3_regimes_summary_ranks_constants example_estimates [] [] 0 1 2);
    try (vm_compute; reflexivity).
  unfold three_regimes. repeat split; try lia. vm_compute. reflexivity.
Defined.

(** ** [detect_tsm_classifications]: what the codes tell *)

Lemma classification_code_facts (p t : cell) :
  (classification_code p t = None <-> ~ (in_domain p /\ in_domain t))
  /\ (classification_code p t = Some 1 \/ classification_code p t = Some 2
      <-> in_domain p /\ p = t)
  /\ (classification_code p t = Some 3 \/ classification_code p t = Some 4
      <-> in_domain p /\ in_domain t /\ p <> t)
  /\ (forall v, classification_code p t = Some v ->
                1 <= v <= 4 /\
                exists pv tv, decode v = Some (pv, tv) /\ p = Some pv /\ t = Some tv).
Proof.
  unfold in_domain. split; [|split; [|split]].
  - destruct p as [[|[?|?|]|[?|?|]]|], t as [[|[?|?|]|[?|?|]]|]; simpl;
      intuition (try discriminate; try congruence).
  - destruct p as [[|[?|?|]|[?|?|]]|], t as [[|[?|?|]|[?|?|]]|]; simpl;
      intuition (try discriminate; try congruence).
  - destruct p as [[|[?|?|]|[?|?|]]|], t as [[|[?|?|]|[?|?|]]|]; simpl;
      intuition (try discriminate; try congruence).
  - intros v Hv.
    destruct p as [[|[?|?|]|[?|?|]]|], t as [[|[?|?|]|[?|?|]]|]; simpl in Hv;
      try discriminate; injection Hv as <-;
      (split; [lia | eexists _, _; repeat split; reflexivity]).
Qed.

(** One cell of the result. *)
Lemma detect_tsm_classifications_cell
    (df : signal_frame) (gt col : signal_column) (c r : nat) (p t : cell) :
  df <> [] ->
  nth_error df c = Some col -> nth_error col r = Some p -> nth_error gt r = Some t ->
  exists res rcol,
    detect_tsm_classifications df gt = Ok res /\
    nth_error res c = Some rcol /\
    nth_error rcol r = Some (classification_code p t).
Proof.
  intros Hne Hc Hp Ht.
  exists (map (fun col => zip_with classification_code col gt) df),
         (zip_with classification_code col gt).
  split; [apply detect_tsm_classifications_columns, Hne|]. split.
  - apply (map_nth_error (fun col => zip_with classification_code col gt)). exact Hc.
  - eapply nth_error_zip_with; eassumption.
Qed.

(** X16.  What a cell of the result tells.  It is unset exactly when the
    prediction or the truth is not one of the codes [1] and [-1]; it is 1
    or 2 exactly when the prediction is a code and equals the truth (a
    correct call), and 3 or 4 exactly when both are codes and differ (a
    wrong call). *)
Theorem detect_tsm_classifications_meaning
    (df : signal_frame) (gt col : signal_column) (c r : nat) (p t : cell) :
  df <> [] -> one_value_per_row df gt ->
  nth_error df c = Some col -> nth_error col r = Some p -> nth_error gt r = Some t ->
  exists res rcol code,
    detect_tsm_classifications df gt = Ok res /\
    nth_error res c = Some rcol /\ nth_error rcol r = Some code /\
    (code = None <-> ~ (in_domain p /\ in_domain t)) /\
    (code = Some 1 \/ code = Some 2 <-> in_domain p /\ p = t) /\
    (code = Some 3 \/ code = Some 4 <-> in_domain p /\ in_domain t /\ p <> t).
Proof.
  intros Hne _ Hc Hp Ht.
  destruct (detect_tsm_classifications_cell df gt col c r p t Hne Hc Hp Ht)
    as (res & rcol & Hres & Hrc & Hcode).
  destruct (classification_code_facts p t) as (F1 & F2 & F3 & _).
  exists res, rcol, (classification_code p t).
  split; [exact Hres|]. split; [exact Hrc|]. split; [exact Hcode|].
  split; [exact F1|]. split; [exact F2 | exact F3].
Qed.

Lemma detect_tsm_classifications_meaning_witness :
  exists res rcol code,
    detect_tsm_classifications [[Some 1; Some (-1)]; [Some (-1); Some 0]]
      [Some 1; Some (-1)] = Ok res /\
    nth_error res 1 = Some rcol /\ nth_error rcol 0 = Some code /\
    (code = None <-> ~ (in_domain (Some (-1)) /\ in_domain (Some 1))) /\
    (code = Some 1 \/ code = Some 2 <-> in_domain (Some (-1)) /\ Some (-1) = Some 1) /\
    (code = Some 3 \/ code = Some 4
     <-> in_domain (Some (-1)) /\ in_domain (Some 1) /\ Some (-1) <> Some 1).
Proof.
  apply (detect_tsm_classifications_meaning
           [[Some 1; Some (-1)]; [Some (-1); Some 0]] [Some 1; Some (-1)]
           [Some (-1); Some 0] 1 0 (Some (-1)) (Some 1));
    try reflexivity; [discriminate | repeat constructor].
Defined.

(** X17.  The codes lose nothing.  A cell that is set holds a code from 1
    to 4, and the code determines both the prediction and the truth it was
    made from: 1 is (1, 1), 2 is (-1, -1), 3 is (1, -1), 4 is (-1, 1). *)
Theorem detect_tsm_classifications_decode
    (df : signal_frame) (gt col : signal_column) (c r : nat) (p t : cell)
    (res : signal_frame) (rcol : signal_column) (v : Z) :
  one_value_per_row df gt ->
  nth_error df c = Some col -> nth_error col r = Some p -> nth_error gt r = Some t ->
  detect_tsm_classifications df gt = Ok res ->
  nth_error res c = Some rcol -> nth_error rcol r = Some (Some v) ->
  1 <= v <= 4 /\
  exists pv tv, decode v = Some (pv, tv) /\ p = Some pv /\ t = Some tv.
Proof.
  intros _ Hc Hp Ht Hres Hrc Hv.
  assert (df <> []) as Hne by (intros ->; destruct c; discriminate).
  destruct (detect_tsm_classifications_cell df gt col c r p t Hne Hc Hp Ht)
    as (res' & rcol' & Hres' & Hrc' & Hcode).
  rewrite Hres in Hres'. injection Hres' as <-.
  rewrite Hrc in Hrc'. injection Hrc' as <-.
  rewrite Hv in Hcode. injection Hcode as Hcode.
  destruct (classification_code_facts p t) as (_ & _ & _ & F).
  apply F. symmetry. exact Hcode.
Qed.

Lemma detect_tsm_classifications_decode_witness :
  1 <= 4 <= 4 /\
  exists pv tv, decode 4 = Some (pv, tv) /\ Some (-1) = Some pv /\ Some 1 = Some tv.
Proof.
  apply (detect_tsm_classifications_decode
           [[Some 1; Some (-1)]; [Some (-1); Some 0]] [Some 1; Some (-1)]
           [Some (-1); Some 0] 1 0 (Some (-1)) (Some 1)
           [[Some 1; Some 2]; [Some 4; None]] [Some 4; None] 4);
    try reflexivity.
  repeat constructor.
Defined.

(** X18.  Columns are classified independently of each other: the result
    for two frames put side by side is the two results put side by side. *)
Theorem detect_tsm_classifications_app
    (df1 df2 res1 res2 : signal_frame) (gt : signal_column) :
  one_value_per_row (df1 ++ df2)%list gt ->
  detect_tsm_classifications df1 gt = Ok res1 ->
  detect_tsm_classifications df2 gt = Ok res2 ->
  detect_tsm_classifications (df1 ++ df2)%list gt = Ok (res1 ++ res2)%list.
Proof.
  intros _ H1 H2.
  assert (df1 <> []) as Hne1 by (intros ->; discriminate).
  assert (df2 <> []) as Hne2 by (intros ->; discriminate).
  rewrite detect_tsm_classifications_columns in H1, H2 by assumption.
  injection H1 as <-. injection H2 as <-.
  rewrite detect_tsm_classifications_columns.
  - rewrite map_app. reflexivity.
  - intros H. apply app_eq_nil in H. tauto.
Qed.

Lemma detect_tsm_classifications_app_witness :
  detect_tsm_classifications
    ([[Some 1; Some (-1)]] ++ [[Some (-1); Some (-1)]])%list [Some 1; Some (-1)]
  = Ok ([[Some 1; Some 2]] ++ [[Some 4; Some 2]])%list.
Proof.
  apply (detect_tsm_classifications_app
           [[Some 1; Some (-1)]] [[Some (-1); Some (-1)]]);
    try reflexivity.
  repeat constructor.
Defined.

(** X19.  The only failure is a frame without columns.  With one value
    per row, the call raises exactly when the frame has no column (the
    [ValueError] of [pd.concat], which has nothing to concatenate), and
    otherwise returns a frame with as many columns, also when there are
    no rows. *)
Theorem detect_tsm_classifications_raises_iff
    (df : signal_frame) (gt : signal_column) :
  one_value_per_row df gt ->
  match detect_tsm_classifications df gt with
  | Raise e => df = [] /\ e = nothing_to_concatenate
  | Ok res => df <> [] /\ length res = length df /\ one_value_per_row res gt
  end.
Proof.
  intros Hshape. destruct df as [|col df].
  - split; reflexivity.
  - rewrite detect_tsm_classifications_columns by discriminate.
    split; [discriminate|]. split; [apply length_map|].
    unfold one_value_per_row in *. apply List.Forall_forall.
    intros rcol Hr. apply in_map_iff in Hr as (col' & <- & Hcol).
    rewrite List.Forall_forall in Hshape. specialize (Hshape col' Hcol).
    rewrite length_zip_with. lia.
Qed.

Lemma detect_tsm_classifications_raises_iff_witness :
  match detect_tsm_classifications [[]; []] [] with
  | Raise e => [[]; []] = @nil signal_column /\ e = nothing_to_concatenate
  | Ok res => [[]; []] <> @nil signal_column /\ length res = 2%nat
              /\ one_value_per_row res []
  end.
Proof.
  apply (detect_tsm_classifications_raises_iff [[]; []] []).
  repeat constructor.
Defined.

Lemma classification_code_negate (p t : cell) :
  classification_code (negate p) (negate t) = swap_code (classification_code p t).
Proof.
  destruct p as [[|[?|?|]|[?|?|]]|], t as [[|[?|?|]|[?|?|]]|]; reflexivity.
Qed.

Lemma zip_with_negate (col gt : signal_column) :
  zip_with classification_code (map negate col) (map negate gt)
  = map swap_code (zip_with classification_code col gt).
Proof.
  revert gt. induction col as [|p col IH]; intros [|t gt]; try reflexivity.
  simpl. rewrite classification_code_negate, IH. reflexivity.
Qed.

(** X20.  Bull and bear are treated alike: turning every prediction and
    every truth into its opposite exchanges the codes 1 and 2 (the correct
    calls) and the codes 3 and 4 (the wrong calls), and leaves unset cells
    unset. *)
Theorem detect_tsm_classifications_negate
    (df res : signal_frame) (gt : signal_column) :
  one_value_per_row df gt ->
  detect_tsm_classifications df gt = Ok res ->
  detect_tsm_classifications (map (map negate) df) (map negate gt)
  = Ok (map (map swap_code) res).
Proof.
  intros _ H.
  assert (df <> []) as Hne by (intros ->; discriminate).
  rewrite detect_tsm_classifications_columns in H by assumption.
  injection H as <-.
  rewrite detect_tsm_classifications_columns
    by (destruct df; [congruence | discriminate]).
  rewrite !map_map. f_equal. apply map_ext. intros col. apply zip_with_negate.
Qed.

Lemma detect_tsm_classifications_negate_witness :
  detect_tsm_classifications
    (map (map negate) [[Some 1; Some (-1); Some 1; Some 5]])
    (map negate [Some 1; Some 1; Some (-1); Some 1])
  = Ok (map (map swap_code) [[Some 1; Some 4; Some 3; None]]).
Proof.
  apply (detect_tsm_classifications_negate [[Some 1; Some (-1); Some 1; Some 5]]);
    [repeat constructor | reflexivity].
Defined.
